(** * The soil-data analysis notebooks, as Rocq functions

    Two notebooks are embedded here.

    - [Spark]: the PySpark pipeline of [code_round_2.ipynb] (schema-driven
      ingestion with range filtering, sampled mean/stddev, z-score anomaly
      filter, compound predicate filter, null interpolation, train/test
      split).
    - [Pandas]: the pandas notebook (duplicate detection and removal,
      mean/median/mode of a column).

    Both notebooks are chains of dataframe-library calls.  The column
    expressions the notebooks build ([col("x").between(0, 100) & ...]) are
    kept as syntax trees and evaluated row by row with the engine's SQL
    semantics: a missing value is [None], a comparison or an arithmetic
    operation with a missing operand is missing, [&] is three-valued, a
    division by zero is missing, and [filter] keeps the rows on which the
    condition is [Some true].

    Numbers are exact rationals ([Q]); the rounding of the engine's binary
    floating point is outside this model. *)

From Stdlib Require Import String.
From Stdlib Require Import List Bool Arith ZArith QArith Qabs Lia Lqa.
From Stdlib Require Import Permutation Sorted.
Import ListNotations.

(** ** Generic list helpers shared by both notebooks *)

(** An order-preserving selection of the elements of a list. *)
Inductive subseq {A : Type} : list A -> list A -> Prop :=
| subseq_nil : subseq [] []
| subseq_keep x l1 l2 : subseq l1 l2 -> subseq (x :: l1) (x :: l2)
| subseq_drop x l1 l2 : subseq l1 l2 -> subseq l1 (x :: l2).

(** Boolean indexing, [df[mask]]: the rows whose mask entry is [true]. *)
Fixpoint boolean_index {A : Type} (df : list A) (mask : list bool) : list A :=
  match df, mask with
  | x :: df', b :: mask' =>
      if b then x :: boolean_index df' mask' else boolean_index df' mask'
  | _, _ => []
  end.

Definition Qsum (l : list Q) : Q := fold_right Qplus 0%Q l.

Definition Qlt_bool (x y : Q) : bool := negb (Qle_bool y x).

Module Spark.

(** *** Rows, data frames and the schema *)

Definition Row := list (string * option Q).
Definition DataFrame := list Row.

Fixpoint getField (name : string) (r : Row) : option Q :=
  match r with
  | [] => None
  | (k, v) :: r' => if String.eqb k name then v else getField name r'
  end.

(** The [StructType] of the notebook; every field is nullable. *)
Definition schema : list string :=
  ["timestamp"; "soil_moisture"; "soil_water_content"; "carbon_percent";
   "nitrogen_percent"; "atmospheric_humidity"; "temperature"; "pH"]%string.

(** [spark.read.schema(schema).csv(file_path, header=True)].  The argument is
    the file after field parsing: one list of cells per data line, a cell
    being [None] when it is empty or does not parse at the declared type.
    Cells beyond the schema are ignored and absent trailing cells read as
    missing. *)
Definition read_csv (cells : list (list (option Q))) : DataFrame :=
  map (combine schema) cells.

(** *** Column expressions *)

Inductive NumCol : Type :=
| col (name : string)
| lit (v : option Q)
| Minus (a b : NumCol)
| Times (a b : NumCol)
| Divide (a b : NumCol)
| when_otherwise (c : BoolCol) (a b : NumCol)
with BoolCol : Type :=
| GtEq (a b : NumCol)
| LtEq (a b : NumCol)
| Gt (a b : NumCol)
| Lt (a b : NumCol)
| AndCol (a b : BoolCol)
| isNull (a : NumCol).

(** [Column.between(lower, upper)] is [(self >= lower) & (self <= upper)]. *)
Definition between (e : NumCol) (lower upper : option Q) : BoolCol :=
  AndCol (GtEq e (lit lower)) (LtEq e (lit upper)).

Definition binop {A B C : Type} (f : A -> B -> C) (x : option A) (y : option B)
  : option C :=
  match x, y with
  | Some a, Some b => Some (f a b)
  | _, _ => None
  end.

(** SQL conjunction: [false] dominates a missing operand. *)
Definition and3 (x y : option bool) : option bool :=
  match x, y with
  | Some false, _ => Some false
  | _, Some false => Some false
  | Some true, Some true => Some true
  | _, _ => None
  end.

(** SQL division under the session's default arithmetic: missing when the
    divisor is zero. *)
Definition divide (x y : option Q) : option Q :=
  match x, y with
  | Some a, Some b => if Qeq_bool b 0 then None else Some (a / b)%Q
  | _, _ => None
  end.

Fixpoint evalN (e : NumCol) (r : Row) : option Q :=
  match e with
  | col name => getField name r
  | lit v => v
  | Minus a b => binop Qminus (evalN a r) (evalN b r)
  | Times a b => binop Qmult (evalN a r) (evalN b r)
  | Divide a b => divide (evalN a r) (evalN b r)
  | when_otherwise c a b =>
      match evalB c r with
      | Some true => evalN a r
      | _ => evalN b r
      end
  end
with evalB (c : BoolCol) (r : Row) : option bool :=
  match c with
  | GtEq a b => binop (fun x y => Qle_bool y x) (evalN a r) (evalN b r)
  | LtEq a b => binop Qle_bool (evalN a r) (evalN b r)
  | Gt a b => binop (fun x y => Qlt_bool y x) (evalN a r) (evalN b r)
  | Lt a b => binop Qlt_bool (evalN a r) (evalN b r)
  | AndCol a b => and3 (evalB a r) (evalB b r)
  | isNull a => Some (match evalN a r with None => true | Some _ => false end)
  end.

(** *** Relational operations *)

(** [DataFrame.filter(condition)]. *)
Definition keeps (c : BoolCol) (r : Row) : bool :=
  match evalB c r with
  | Some true => true
  | _ => false
  end.

Definition filter_df (c : BoolCol) (d : DataFrame) : DataFrame :=
  filter (keeps c) d.

(** [DataFrame.withColumn(name, e)]: replaces the column of that name where
    the row has one, appends it otherwise. *)
Fixpoint setField (name : string) (v : option Q) (r : Row) : Row :=
  match r with
  | [] => [(name, v)]
  | (k, w) :: r' =>
      if String.eqb k name then (k, v) :: r' else (k, w) :: setField name v r'
  end.

Definition withColumn (name : string) (e : NumCol) (d : DataFrame) : DataFrame :=
  map (fun r => setField name (evalN e r) r) d.

(** *** Aggregates *)

(** The non-missing values of a column. *)
Fixpoint column_values (name : string) (d : DataFrame) : list Q :=
  match d with
  | [] => []
  | r :: d' =>
      match getField name r with
      | Some v => v :: column_values name d'
      | None => column_values name d'
      end
  end.

Definition count_Q (l : list Q) : Q := inject_Z (Z.of_nat (length l)).

(** [mean(name)]: missing over no value. *)
Definition mean (name : string) (d : DataFrame) : option Q :=
  match column_values name d with
  | [] => None
  | vs => Some (Qsum vs / count_Q vs)%Q
  end.

(** [all_some l]: the values of [l] when none is missing. *)
Fixpoint all_some {A : Type} (l : list (option A)) : option (list A) :=
  match l with
  | [] => Some []
  | None :: _ => None
  | Some x :: l' => option_map (cons x) (all_some l')
  end.

(** [VectorAssembler(inputCols, outputCol="features").transform]: every row
    gains a vector of its input columns; the default [handleInvalid="error"]
    makes the transformation fail on a missing input ([None] here). *)
Definition VectorRow : Type := Row * list Q.

Definition assemble (inputCols : list string) (r : Row) : option VectorRow :=
  option_map (pair r) (all_some (map (fun c => getField c r) inputCols)).

Definition transform (inputCols : list string) (d : DataFrame)
  : option (list VectorRow) :=
  all_some (map (assemble inputCols) d).

(** *** Declared ranges

    The valid range of each measurement, as the notebook's header lists them
    under "Dataset Columns"; [timestamp] has none. *)
Definition declared_ranges : list (string * (Q * Q)) :=
  [("soil_moisture", (0, 100)); ("soil_water_content", (0, 100));
   ("carbon_percent", (0, 10)); ("nitrogen_percent", (0, 5));
   ("atmospheric_humidity", (0, 100)); ("temperature", (0, 40));
   ("pH", (4, 9))]%string%Q.

(** The field is present and inside the inclusive range. *)
Definition within (r : Row) (c : string * (Q * Q)) : Prop :=
  exists v, getField (fst c) r = Some v /\ (fst (snd c) <= v <= snd (snd c))%Q.

(** The field parsed to a number outside the range. *)
Definition violates (r : Row) (c : string * (Q * Q)) : Prop :=
  exists v, getField (fst c) r = Some v /\ (v < fst (snd c) \/ snd (snd c) < v)%Q.

Definition range_valid (r : Row) : Prop := Forall (within r) declared_ranges.

(** *** The pipeline, parameterised by the engine's pseudo-random and
    numeric primitives *)

Section Engine.

(** [sampler fraction seed i]: whether the Bernoulli sampler seeded with
    [seed] accepts the row at position [i]. *)
Variable sampler : Q -> Z -> nat -> bool.

(** [nextDouble seed i]: the uniform draw the cell sampler of [randomSplit]
    makes for the row at position [i]. *)
Variable nextDouble : Z -> nat -> Q.

(** The engine's square root. *)
Variable sqrt : Q -> Q.

(** [DataFrame.sample(fraction, seed)]. *)
Fixpoint sample_from {A : Type} (i : nat) (fraction : Q) (seed : Z)
  (d : list A) : list A :=
  match d with
  | [] => []
  | r :: d' =>
      if sampler fraction seed i
      then r :: sample_from (S i) fraction seed d'
      else sample_from (S i) fraction seed d'
  end.

Definition sample {A : Type} (fraction : Q) (seed : Z) (d : list A) : list A :=
  sample_from 0 fraction seed d.

(** [stddev(name)], the sample standard deviation: missing over fewer than
    two values. *)
Definition stddev (name : string) (d : DataFrame) : option Q :=
  match column_values name d with
  | [] => None
  | [_] => None
  | vs =>
      let m := (Qsum vs / count_Q vs)%Q in
      Some (sqrt (Qsum (map (fun x => (x - m) * (x - m)) vs)
                  / (count_Q vs - 1)))%Q
  end.

(** Task 1: ingestion with the range filter. *)
Definition ingest_condition : BoolCol :=
  AndCol (AndCol (AndCol (AndCol (AndCol (AndCol
    (between (col "soil_moisture") (Some 0) (Some 100))
    (between (col "soil_water_content") (Some 0) (Some 100)))
    (between (col "carbon_percent") (Some 0) (Some 10)))
    (between (col "nitrogen_percent") (Some 0) (Some 5)))
    (between (col "atmospheric_humidity") (Some 0) (Some 100)))
    (between (col "temperature") (Some 0) (Some 40)))
    (between (col "pH") (Some 4) (Some 9))%Q.

Definition df (cells : list (list (option Q))) : DataFrame :=
  filter_df ingest_condition (read_csv cells).

(** Task 2: anomaly filtering.  [stats_row] is the single row of the
    aggregate over the sample; its fields are Python [None] when the
    aggregate is missing, and a Python [None] operand becomes a missing
    literal of the column expression. *)
Definition stats_row (d : DataFrame) : option Q * option Q :=
  let s := sample (1 # 1000) 42 d in
  (mean "soil_moisture" s, stddev "soil_moisture" s).

Definition mean_moisture (d : DataFrame) : option Q := fst (stats_row d).
Definition stddev_moisture (d : DataFrame) : option Q := snd (stats_row d).

Definition zscore (d : DataFrame) : NumCol :=
  Divide (Minus (col "soil_moisture") (lit (mean_moisture d)))
         (lit (stddev_moisture d)).

Definition df_clean (d : DataFrame) : DataFrame :=
  filter_df (between (zscore d) (Some (-3)) (Some 3))%Q d.

(** Task 3: the compound predicate filter. *)
Definition filtered_df (dc : DataFrame) : DataFrame :=
  filter_df (AndCol (Gt (col "soil_moisture") (lit (Some 80)))
                    (Lt (col "pH") (lit (Some 5))))%Q dc.

(** Task 5: interpolation, sampling, feature assembly and the split. *)
Definition df_interp (dc : DataFrame) : DataFrame :=
  withColumn "carbon_percent_interp"
    (when_otherwise (isNull (col "carbon_percent"))
                    (Times (col "soil_moisture") (lit (Some (5 # 100))))
                    (col "carbon_percent"))
    dc.

Definition sample_pred (di : DataFrame) : DataFrame :=
  sample (1 # 1000) 42 di.

Definition df_vector (sp : DataFrame) : option (list VectorRow) :=
  transform ["soil_moisture"; "temperature"]%string sp.

(** [randomSplit(weights, seed)]: the weights are normalised and summed into
    cell bounds; every split draws the same number per row and keeps the row
    when the draw falls in its cell [lb <= x < ub]. *)
Fixpoint scan_left (acc : Q) (ws : list Q) : list Q :=
  acc :: match ws with
         | [] => []
         | w :: ws' => scan_left (acc + w)%Q ws'
         end.

Fixpoint sliding2 (l : list Q) : list (Q * Q) :=
  match l with
  | a :: (b :: _) as t => (a, b) :: sliding2 t
  | _ => []
  end.

Definition in_cell (lb ub x : Q) : bool := Qle_bool lb x && Qlt_bool x ub.

Fixpoint cell_mask (i n : nat) (seed : Z) (lb ub : Q) : list bool :=
  match n with
  | O => []
  | S n' => in_cell lb ub (nextDouble seed i) :: cell_mask (S i) n' seed lb ub
  end.

Definition randomSplit {A : Type} (weights : list Q) (seed : Z) (d : list A)
  : list (list A) :=
  let total := Qsum weights in
  let bounds := scan_left 0%Q (map (fun w => w / total)%Q weights) in
  map (fun c => boolean_index d (cell_mask 0 (length d) seed (fst c) (snd c)))
      (sliding2 bounds).

(** [train_df, test_df = df_vector.randomSplit([0.8, 0.2], seed=42)]; the
    unpacking fails ([None]) unless there are exactly two splits. *)
Definition train_test {A : Type} (dv : list A) : option (list A * list A) :=
  match randomSplit [8 # 10; 2 # 10] 42 dv with
  | [train_df; test_df] => Some (train_df, test_df)
  | _ => None
  end.

End Engine.

(** *** Ordering (Task 3) *)

(** Ascending order on a nullable field: missing values first. *)
Definition compare_field (x y : option Q) : comparison :=
  match x, y with
  | None, None => Eq
  | None, Some _ => Datatypes.Lt
  | Some _, None => Datatypes.Gt
  | Some a, Some b => (a ?= b)%Q
  end.

(** Lexicographic comparison on a list of sort columns. *)
Fixpoint row_leb (cols : list string) (a b : Row) : bool :=
  match cols with
  | [] => true
  | c :: cs =>
      match compare_field (getField c a) (getField c b) with
      | Datatypes.Lt => true
      | Datatypes.Gt => false
      | Datatypes.Eq => row_leb cs a b
      end
  end.

Fixpoint insert_row (cols : list string) (x : Row) (l : DataFrame) : DataFrame :=
  match l with
  | [] => [x]
  | y :: l' => if row_leb cols x y then x :: l else y :: insert_row cols x l'
  end.

(** [DataFrame.orderBy(cols)], ascending.  Rows with equal keys stay in
    input order here; the engine leaves their order open. *)
Fixpoint orderBy (cols : list string) (d : DataFrame) : DataFrame :=
  match d with
  | [] => []
  | r :: d' => insert_row cols r (orderBy cols d')
  end.

Section Ordering.

Variable sampler : Q -> Z -> nat -> bool.

Definition sorted_sample (dc : DataFrame) : DataFrame :=
  orderBy ["timestamp"; "soil_moisture"; "temperature"]%string
          (sample sampler (1 # 10000) 42 dc).

End Ordering.

(** *** Statistics and their report (Task 4) *)

(** What a Python expression evaluates to: a value or a raised exception. *)
Inductive PyError : Type := TypeError | IndexError.

Definition py_bind {A B : Type} (x : PyError + A) (k : A -> PyError + B)
  : PyError + B :=
  match x with
  | inl e => inl e
  | inr a => k a
  end.

(** The row [stats] collects. *)
Record StatsRow : Type := {
  carbon_mean : option Q;
  carbon_median : option Q;
  carbon_stddev : option Q;
  carbon_quartiles : option (list Q);
  nitrogen_mean : option Q;
  nitrogen_median : option Q;
  nitrogen_stddev : option Q;
  nitrogen_quartiles : option (list Q)
}.

Section Statistics.

Variable sqrt : Q -> Q.

(** [percentile_approx(col, p, accuracy)] over the non-missing values of a
    column, for one percentage and for a list of percentages. *)
Variable percentile_approx : list Q -> Q -> Z -> option Q.
Variable percentile_approx_array : list Q -> list Q -> Z -> option (list Q).

(** The rendering of a number under the format [.2f]. *)
Variable format_2f : Q -> string.

Definition stats (dc : DataFrame) : StatsRow :=
  let carbon := column_values "carbon_percent" dc in
  let nitrogen := column_values "nitrogen_percent" dc in
  {| carbon_mean := mean "carbon_percent" dc;
     carbon_median := percentile_approx carbon (1 # 2) 1000;
     carbon_stddev := stddev sqrt "carbon_percent" dc;
     carbon_quartiles := percentile_approx_array carbon [1 # 4; 3 # 4] 1000;
     nitrogen_mean := mean "nitrogen_percent" dc;
     nitrogen_median := percentile_approx nitrogen (1 # 2) 1000;
     nitrogen_stddev := stddev sqrt "nitrogen_percent" dc;
     nitrogen_quartiles := percentile_approx_array nitrogen [1 # 4; 3 # 4] 1000 |}.

(** [f"{v:.2f}"]: formatting Python [None] raises [TypeError]. *)
Definition format_field (v : option Q) : PyError + string :=
  match v with
  | None => inl TypeError
  | Some q => inr (format_2f q)
  end.

(** [quartiles[i]]: subscripting [None] raises [TypeError], an index past the
    end raises [IndexError]. *)
Definition subscript (l : option (list Q)) (i : nat) : PyError + Q :=
  match l with
  | None => inl TypeError
  | Some l' =>
      match nth_error l' i with
      | None => inl IndexError
      | Some q => inr q
      end
  end.

(** One printed line; the fields are evaluated left to right. *)
Definition report_line (label : string) (m md sd : option Q)
  (quartiles : option (list Q)) : PyError + string :=
  py_bind (format_field m) (fun a =>
  py_bind (format_field md) (fun b =>
  py_bind (format_field sd) (fun c =>
  py_bind (subscript quartiles 0) (fun q1 =>
  py_bind (subscript quartiles 1) (fun q3 =>
  inr (label ++ " -> Mean: " ++ a ++ ", Median: " ++ b ++ ", StdDev: " ++ c
       ++ ", " ++ "Q1: " ++ format_2f q1 ++ ", Q3: " ++ format_2f q3)%string))))).

(** The two [print] statements of Task 4: the lines printed, and the
    exception that stopped the cell if one was raised. *)
Definition print_stats (st : StatsRow) : list string * option PyError :=
  match report_line "Carbon Percent" (carbon_mean st) (carbon_median st)
                    (carbon_stddev st) (carbon_quartiles st) with
  | inl e => ([], Some e)
  | inr l1 =>
      match report_line "Nitrogen Percent" (nitrogen_mean st)
                        (nitrogen_median st) (nitrogen_stddev st)
                        (nitrogen_quartiles st) with
      | inl e => ([l1], Some e)
      | inr l2 => ([l1; l2], None)
      end
  end.

End Statistics.

End Spark.

Module Pandas.

(** *** Duplicate detection and removal, over any row type *)

Section Frame.

Context {row : Type} (row_eq_dec : forall x y : row, {x = y} + {x <> y}).

(** A frame is its rows in order, each with its index label. *)
Definition DataFrame : Type := list (nat * row).

(** [pd.read_csv]: the parsed lines under the default [RangeIndex]. *)
Definition read_csv (rows : list row) : DataFrame :=
  combine (seq 0 (length rows)) rows.

Definition shape0 (d : DataFrame) : nat := length d.

Definition mem (x : row) (l : list row) : bool :=
  if in_dec row_eq_dec x l then true else false.

Inductive keep_t : Type := keep_first | keep_last | keep_False.

(** [keep='first']: a row is marked when its values were seen before it. *)
Fixpoint duplicated_first (seen l : list row) : list bool :=
  match l with
  | [] => []
  | x :: t => mem x seen :: duplicated_first (x :: seen) t
  end.

(** [keep=False]: a row is marked when its values occur before or after it. *)
Fixpoint duplicated_all (before l : list row) : list bool :=
  match l with
  | [] => []
  | x :: t => (mem x before || mem x t) :: duplicated_all (x :: before) t
  end.

(** [DataFrame.duplicated(keep)]: rows are compared on their values, not on
    their index labels. *)
Definition duplicated (keep : keep_t) (d : DataFrame) : list bool :=
  let vs := map snd d in
  match keep with
  | keep_first => duplicated_first [] vs
  | keep_last => rev (duplicated_first [] (rev vs))
  | keep_False => duplicated_all [] vs
  end.

(** [all_duplicates = df[df.duplicated(keep=False)]]. *)
Definition all_duplicates (d : DataFrame) : DataFrame :=
  boolean_index d (duplicated keep_False d).

(** [df.drop_duplicates(inplace=True)]: the frame [df] is bound to afterwards,
    [df[~df.duplicated(keep='first')]]. *)
Definition drop_duplicates (d : DataFrame) : DataFrame :=
  boolean_index d (map negb (duplicated keep_first d)).

(** The two numbers the cell prints. *)
Definition duplicate_report (d : DataFrame) : nat * nat :=
  (shape0 (all_duplicates d), shape0 (drop_duplicates d)).

End Frame.

(** *** Column statistics *)

(** A numeric column; [None] is a missing value (NaN). *)
Definition Series : Type := list (option Q).

Fixpoint dropna (s : Series) : list Q :=
  match s with
  | [] => []
  | Some v :: s' => v :: dropna s'
  | None :: s' => dropna s'
  end.

Fixpoint insert_sorted (x : Q) (l : list Q) : list Q :=
  match l with
  | [] => [x]
  | y :: l' => if Qle_bool x y then x :: l else y :: insert_sorted x l'
  end.

Fixpoint sort (l : list Q) : list Q :=
  match l with
  | [] => []
  | x :: l' => insert_sorted x (sort l')
  end.

(** Occurrences of a value, compared as numbers. *)
Fixpoint count_of (x : Q) (l : list Q) : nat :=
  match l with
  | [] => O
  | y :: l' => if Qeq_bool x y then S (count_of x l') else count_of x l'
  end.

(** The distinct values, in order of first appearance. *)
Fixpoint unique (l : list Q) : list Q :=
  match l with
  | [] => []
  | x :: l' => x :: filter (fun y => negb (Qeq_bool x y)) (unique l')
  end.

Definition max_count (keys vs : list Q) : nat :=
  fold_right (fun k m => Nat.max (count_of k vs) m) O keys.

(** [Series.mean()]: over the non-missing values, NaN over none. *)
Definition mean (s : Series) : option Q :=
  match dropna s with
  | [] => None
  | vs => Some (Qsum vs / inject_Z (Z.of_nat (length vs)))%Q
  end.

(** [Series.median()]: the middle of the sorted non-missing values, the
    average of the two middle ones for an even count. *)
Definition median (s : Series) : option Q :=
  let vs := sort (dropna s) in
  let n := length vs in
  match n with
  | O => None
  | _ =>
      if Nat.even n
      then Some ((nth (n / 2 - 1) vs 0 + nth (n / 2) vs 0) / 2)%Q
      else Some (nth (n / 2) vs 0%Q)
  end.

(** [Series.mode()]: the non-missing values of highest count, sorted. *)
Definition mode (s : Series) : list Q :=
  let vs := dropna s in
  let keys := unique vs in
  let top := max_count keys vs in
  sort (filter (fun k => Nat.eqb (count_of k vs) top) keys).

(** [mode_series.iloc[0] if not mode_series.empty else np.nan]. *)
Definition mode_val (s : Series) : option Q :=
  match mode s with
  | [] => None
  | m :: _ => Some m
  end.

Definition compute_stats (column : Series) : option Q * option Q * option Q :=
  (mean column, median column, mode_val column).

(** Position of the first occurrence of a value in scan order. *)
Fixpoint first_index (x : Q) (l : list Q) : nat :=
  match l with
  | [] => O
  | y :: l' => if Qeq_bool x y then O else S (first_index x l')
  end.

(** *** Named columns and the derived column *)

(** The frame by columns: each column name with its values, all over the
    same index. *)
Definition Columns : Type := list (string * Series).

(** [df[name]]: [None] stands for the [KeyError] of an absent column. *)
Fixpoint getitem (name : string) (f : Columns) : option Series :=
  match f with
  | [] => None
  | (k, s) :: f' => if String.eqb k name then Some s else getitem name f'
  end.

(** [df[name] = s]: replaces the column of that name, appends it otherwise. *)
Fixpoint setitem (name : string) (s : Series) (f : Columns) : Columns :=
  match f with
  | [] => [(name, s)]
  | (k, t) :: f' =>
      if String.eqb k name then (k, s) :: f' else (k, t) :: setitem name s f'
  end.

(** Addition of two values: missing when either is. *)
Definition nan_add (x y : option Q) : option Q :=
  match x, y with
  | Some a, Some b => Some (a + b)%Q
  | _, _ => None
  end.

(** [a + b] for two columns of one frame: row by row. *)
Fixpoint series_add (a b : Series) : Series :=
  match a, b with
  | x :: a', y :: b' => nan_add x y :: series_add a' b'
  | _, _ => []
  end.

(** [df['combined_value'] = df['sensor_reading'] + df['control_value']]. *)
Definition add_combined_value (f : Columns) : option Columns :=
  match getitem "sensor_reading" f with
  | None => None
  | Some a =>
      match getitem "control_value" f with
      | None => None
      | Some b => Some (setitem "combined_value" (series_add a b) f)
      end
  end.


End Pandas.

(** ** Concrete engines and inputs used to exercise the statements *)

Module Instances.


(** A draw in [0, 1) that depends on the seed and the position. *)
Definition lcg (seed : Z) (i : nat) : Q :=
  ((Z.of_nat i * 37 + seed) mod 100) # 100.

(** A square root that is exact on quotients of perfect squares (the integer
    square roots of the reduced numerator and denominator elsewhere). *)
Definition Qsqrt (q : Q) : Q :=
  Z.sqrt (Qnum (Qred q)) # Pos.sqrt (Qden (Qred q)).


(** A sampler that accepts the first three rows only. *)
Definition sample_head (fraction : Q) (seed : Z) (i : nat) : bool :=
  (i <? 3)%nat.

(** Six parsed lines: soil moisture 10, 20, 30 with every field in range,
    one with soil moisture 100, one without a carbon reading and one whose
    carbon reading is outside its range. *)
Definition six_cells : list (list (option Q)) :=
  [[Some 1; Some 10; Some 20; Some 5; Some 2; Some 40; Some 20; Some 7];
   [Some 2; Some 20; Some 30; Some 6; Some 3; Some 60; Some 25; Some 6];
   [Some 3; Some 30; Some 30; Some 4; Some 3; Some 60; Some 25; Some 6];
   [Some 4; Some 100; Some 30; Some 4; Some 3; Some 60; Some 25; Some 6];
   [Some 5; Some 30; Some 30; None; Some 3; Some 60; Some 25; Some 6];
   [Some 6; Some 30; Some 30; Some 11; Some 3; Some 60; Some 25; Some 6]]%Q.

End Instances.

(** ** Properties of the generic helpers *)

Lemma subseq_refl {A : Type} (l : list A) : subseq l l.
Proof. induction l; constructor; assumption. Qed.

Lemma subseq_filter {A : Type} (f : A -> bool) (l : list A) :
  subseq (filter f l) l.
Proof.
  induction l as [|x l IH]; simpl.
  - constructor.
  - destruct (f x); constructor; exact IH.
Qed.

Lemma subseq_In {A : Type} (l1 l2 : list A) (x : A) :
  subseq l1 l2 -> In x l1 -> In x l2.
Proof.
  induction 1 as [|y l1 l2 _ IH|y l1 l2 _ IH]; simpl; intros Hin.
  - exact Hin.
  - destruct Hin as [->|Hin]; [left; reflexivity | right; exact (IH Hin)].
  - right; exact (IH Hin).
Qed.

Lemma Qlt_bool_iff (x y : Q) : Qlt_bool x y = true <-> (x < y)%Q.
Proof.
  unfold Qlt_bool. rewrite negb_true_iff.
  split; intros H.
  - apply Qnot_le_lt. intros Hle. apply Qle_bool_iff in Hle. congruence.
  - destruct (Qle_bool y x) eqn:E; [|reflexivity].
    apply Qle_bool_iff in E. exfalso. exact (Qlt_not_le _ _ H E).
Qed.

Lemma subseq_nil_l {A : Type} (l : list A) : subseq [] l.
Proof. induction l; constructor; assumption. Qed.

Lemma boolean_index_subseq {A : Type} (d : list A) (mask : list bool) :
  subseq (boolean_index d mask) d.
Proof.
  revert mask. induction d as [|x d IH]; intros mask; simpl.
  - constructor.
  - destruct mask as [|b mask].
    + apply subseq_drop, subseq_nil_l.
    + destruct b; constructor; apply IH.
Qed.


(** ** The Spark pipeline *)

Module SparkSpec.

Import Spark.

Lemma and3_true (a b : option bool) :
  and3 a b = Some true <-> a = Some true /\ b = Some true.
Proof.
  destruct a as [[|]|], b as [[|]|]; simpl; split;
    try (intros [? ?]); try intros ?; try split; congruence.
Qed.

Lemma keeps_true (c : BoolCol) (r : Row) :
  keeps c r = true <-> evalB c r = Some true.
Proof.
  unfold keeps. destruct (evalB c r) as [[|]|]; split; congruence.
Qed.

Lemma keeps_and (a b : BoolCol) (r : Row) :
  keeps (AndCol a b) r = true <-> keeps a r = true /\ keeps b r = true.
Proof. rewrite !keeps_true. simpl. apply and3_true. Qed.

Lemma keeps_between (e : NumCol) (lo hi : Q) (r : Row) :
  keeps (between e (Some lo) (Some hi)) r = true <->
  exists v, evalN e r = Some v /\ (lo <= v <= hi)%Q.
Proof.
  unfold between. rewrite keeps_and, !keeps_true. simpl.
  destruct (evalN e r) as [v|]; simpl.
  - split.
    + intros [H1 H2]. exists v. split; [reflexivity|].
      injection H1 as H1. injection H2 as H2.
      split; apply Qle_bool_iff; assumption.
    + intros [w [Hw [H1 H2]]]. injection Hw as <-.
      split; f_equal; apply Qle_bool_iff; assumption.
  - split.
    + intros [H _]. discriminate.
    + intros [w [Hw _]]. discriminate.
Qed.

Lemma filter_df_In (c : BoolCol) (d : DataFrame) (r : Row) :
  In r (filter_df c d) <-> In r d /\ keeps c r = true.
Proof. unfold filter_df. apply filter_In. Qed.

Lemma filter_df_subseq (c : BoolCol) (d : DataFrame) :
  subseq (filter_df c d) d.
Proof. apply subseq_filter. Qed.

Lemma range_valid_unfold (r : Row) :
  range_valid r <->
  within r ("soil_moisture"%string, (0, 100)%Q) /\
  within r ("soil_water_content"%string, (0, 100)%Q) /\
  within r ("carbon_percent"%string, (0, 10)%Q) /\
  within r ("nitrogen_percent"%string, (0, 5)%Q) /\
  within r ("atmospheric_humidity"%string, (0, 100)%Q) /\
  within r ("temperature"%string, (0, 40)%Q) /\
  within r ("pH"%string, (4, 9)%Q).
Proof.
  unfold range_valid, declared_ranges.
  rewrite !Forall_cons_iff.
  split.
  - intros (H1 & H2 & H3 & H4 & H5 & H6 & H7 & _). tauto.
  - intros (H1 & H2 & H3 & H4 & H5 & H6 & H7).
    repeat (split; [assumption|]). constructor.
Qed.

(** The range filter of the ingestion keeps exactly the rows that satisfy
    every declared range. *)
Lemma keeps_ingest_condition (r : Row) :
  keeps ingest_condition r = true <-> range_valid r.
Proof.
  unfold ingest_condition.
  rewrite !keeps_and, !keeps_between, range_valid_unfold.
  unfold within; simpl. tauto.
Qed.

Lemma within_not_violates (r : Row) (c : string * (Q * Q)) :
  within r c -> ~ violates r c.
Proof.
  intros [v [Hv [Hlo Hhi]]] [w [Hw Hout]].
  rewrite Hv in Hw. injection Hw as <-.
  destruct Hout as [Hout|Hout].
  - exact (Qlt_not_le _ _ Hout Hlo).
  - exact (Qlt_not_le _ _ Hout Hhi).
Qed.

Lemma df_In (cells : list (list (option Q))) (r : Row) :
  In r (df cells) <-> In r (read_csv cells) /\ range_valid r.
Proof.
  unfold df. rewrite filter_df_In, keeps_ingest_condition. reflexivity.
Qed.

(** C3.  The ingestion output consists of exactly the parsed rows that satisfy
    every declared inclusive range (soil_moisture and soil_water_content and
    atmospheric_humidity in [0,100], carbon_percent in [0,10],
    nitrogen_percent in [0,5], temperature in [0,40], pH in [4,9]); and a
    parsed row with a field outside its declared range is not in the
    output. *)
Theorem ingestion_ranges (cells : list (list (option Q))) :
  (forall r, In r (df cells) <-> In r (read_csv cells) /\ range_valid r) /\
  (forall r c, In r (read_csv cells) -> In c declared_ranges ->
               violates r c -> ~ In r (df cells)).
Proof.
  split; [apply df_In|].
  intros r c _ Hc Hviol Hin.
  apply df_In in Hin. destruct Hin as [_ Hvalid].
  unfold range_valid in Hvalid. rewrite Forall_forall in Hvalid.
  exact (within_not_violates r c (Hvalid c Hc) Hviol).
Qed.

(** *** The frame of [withColumn] *)

Lemma getField_setField_same (name : string) (v : option Q) (r : Row) :
  getField name (setField name v r) = v.
Proof.
  induction r as [|[k w] r IH]; simpl.
  - rewrite String.eqb_refl. reflexivity.
  - destruct (String.eqb k name) eqn:E; simpl; rewrite E; [reflexivity|exact IH].
Qed.

Lemma getField_setField_other (name other : string) (v : option Q) (r : Row) :
  other <> name -> getField other (setField name v r) = getField other r.
Proof.
  intros Hne. induction r as [|[k w] r IH]; simpl.
  - destruct (String.eqb name other) eqn:E; [|reflexivity].
    apply String.eqb_eq in E. congruence.
  - destruct (String.eqb k name) eqn:E; simpl.
    + apply String.eqb_eq in E. subst k.
      destruct (String.eqb name other) eqn:E'; [|reflexivity].
      apply String.eqb_eq in E'. congruence.
    + rewrite IH. reflexivity.
Qed.

Lemma withColumn_nth (name : string) (e : NumCol) (d : DataFrame) (i : nat) :
  nth_error (withColumn name e d) i =
  option_map (fun r => setField name (evalN e r) r) (nth_error d i).
Proof. unfold withColumn. apply nth_error_map. Qed.

(** The value the interpolation expression takes on a row. *)
Definition interp_value (r : Row) : option Q :=
  match getField "carbon_percent" r with
  | Some c => Some c
  | None =>
      match getField "soil_moisture" r with
      | Some m => Some (m * (5 # 100))%Q
      | None => None
      end
  end.

Lemma evalN_interp (r : Row) :
  evalN (when_otherwise (isNull (col "carbon_percent"))
                        (Times (col "soil_moisture") (lit (Some (5 # 100))))
                        (col "carbon_percent")) r = interp_value r.
Proof.
  unfold interp_value. simpl.
  destruct (getField "carbon_percent" r) as [c|]; [reflexivity|].
  destruct (getField "soil_moisture" r); reflexivity.
Qed.

(** C7.  The interpolation keeps the rows one for one and in order; on every
    row the interpolated carbon_percent is the row's carbon_percent when it
    is present and soil_moisture times 0.05 when it is missing (missing when
    soil_moisture is missing too); every other column of the row, the
    original carbon_percent among them, is unchanged. *)
Theorem interpolate_frame (dc : DataFrame) :
  length (df_interp dc) = length dc /\
  forall i r, nth_error dc i = Some r ->
    exists r', nth_error (df_interp dc) i = Some r' /\
      getField "carbon_percent_interp" r' = interp_value r /\
      forall name, name <> "carbon_percent_interp"%string ->
                   getField name r' = getField name r.
Proof.
  split.
  - unfold df_interp, withColumn. apply length_map.
  - intros i r Hr. unfold df_interp.
    rewrite withColumn_nth, Hr. simpl.
    eexists. split; [reflexivity|]. split.
    + rewrite getField_setField_same.
      destruct (getField "carbon_percent" r) as [c|] eqn:Ec;
        unfold interp_value; rewrite Ec; [reflexivity|].
      destruct (getField "soil_moisture" r); reflexivity.
    + intros name Hname. apply getField_setField_other. exact Hname.
Qed.

Section Engine.

Variable sampler : Q -> Z -> nat -> bool.
Variable nextDouble : Z -> nat -> Q.
Variable sqrt : Q -> Q.

(** *** The anomaly filter *)

(** The condition of the anomaly filter holds on a row exactly when the
    row's soil moisture and both estimates are present, the estimated
    deviation is not zero, and the z-score is between -3 and 3. *)
Lemma keeps_zscore (d : DataFrame) (r : Row) :
  keeps (between (zscore sampler sqrt d) (Some (-3)) (Some 3))%Q r = true <->
  exists v m s,
    getField "soil_moisture" r = Some v /\
    mean_moisture sampler sqrt d = Some m /\
    stddev_moisture sampler sqrt d = Some s /\
    ~ (s == 0)%Q /\ (-3 <= (v - m) / s <= 3)%Q.
Proof.
  rewrite keeps_between. unfold zscore. simpl.
  destruct (getField "soil_moisture" r) as [v|];
    destruct (mean_moisture sampler sqrt d) as [m|];
    destruct (stddev_moisture sampler sqrt d) as [s|]; simpl;
    try (split; [intros [z [Hz _]]; discriminate
                |intros (v' & m' & s' & H1 & H2 & H3 & _); discriminate]).
  destruct (Qeq_bool s 0) eqn:E.
  - split.
    + intros [z [Hz _]]. discriminate.
    + intros (v' & m' & s' & H1 & H2 & H3 & Hs & _).
      injection H3 as <-. apply Qeq_bool_iff in E. contradiction.
  - split.
    + intros [z [Hz Hb]]. injection Hz as <-.
      exists v, m, s. repeat split; try reflexivity; try apply Hb.
      intros Hs. apply Qeq_bool_iff in Hs. congruence.
    + intros (v' & m' & s' & H1 & H2 & H3 & _ & Hb).
      injection H1 as <-. injection H2 as <-. injection H3 as <-.
      exists ((v - m) / s)%Q. split; [reflexivity|exact Hb].
Qed.

(** A z-score between -3 and 3 puts the value within three estimated
    deviations of the estimated mean. *)
Lemma zscore_band (x s : Q) :
  ~ (s == 0)%Q -> (-3 <= x / s <= 3)%Q -> (Qabs x <= 3 * Qabs s)%Q.
Proof.
  intros Hs Hz.
  assert (Hx : (x == (x / s) * s)%Q) by (field; exact Hs).
  rewrite Hx at 1. rewrite Qabs_Qmult.
  apply Qmult_le_compat_r; [|apply Qabs_nonneg].
  apply Qabs_Qle_condition. exact Hz.
Qed.

(** C1.  A row is retained by the anomaly filter exactly when it is a row of
    the input whose z-score, (soil_moisture - estimated mean) / estimated
    standard deviation with both estimates taken over the seeded sample, is
    defined and lies in the closed interval from -3 to 3; the soil moisture
    of a retained row is within three estimated deviations of the estimated
    mean. *)
Theorem outlier_filter_zscore (d : DataFrame) (r : Row) :
  (In r (df_clean sampler sqrt d) <->
   In r d /\
   exists v m s,
     getField "soil_moisture" r = Some v /\
     mean "soil_moisture" (sample sampler (1 # 1000) 42 d) = Some m /\
     stddev sqrt "soil_moisture" (sample sampler (1 # 1000) 42 d) = Some s /\
     ~ (s == 0)%Q /\ (-3 <= (v - m) / s <= 3)%Q) /\
  (In r (df_clean sampler sqrt d) ->
   exists v m s,
     getField "soil_moisture" r = Some v /\
     mean "soil_moisture" (sample sampler (1 # 1000) 42 d) = Some m /\
     stddev sqrt "soil_moisture" (sample sampler (1 # 1000) 42 d) = Some s /\
     (Qabs (v - m) <= 3 * Qabs s)%Q).
Proof.
  assert (Hiff : In r (df_clean sampler sqrt d) <->
   In r d /\
   exists v m s,
     getField "soil_moisture" r = Some v /\
     mean "soil_moisture" (sample sampler (1 # 1000) 42 d) = Some m /\
     stddev sqrt "soil_moisture" (sample sampler (1 # 1000) 42 d) = Some s /\
     ~ (s == 0)%Q /\ (-3 <= (v - m) / s <= 3)%Q).
  { unfold df_clean. rewrite filter_df_In, keeps_zscore. reflexivity. }
  split; [exact Hiff|].
  intros Hin. apply Hiff in Hin.
  destruct Hin as (_ & v & m & s & Hv & Hm & Hs & Hnz & Hz).
  exists v, m, s. repeat split; try assumption.
  apply zscore_band; assumption.
Qed.


(** *** The compound filter and the invariant of ingestion *)

(** C10.  The anomaly filter and the compound predicate filter return an
    order-preserving selection of the rows of their input, each row as it
    was; so rows that satisfy every declared range still do after either
    filter. *)
Theorem filters_only_remove (d : DataFrame) :
  subseq (df_clean sampler sqrt d) d /\
  subseq (filtered_df d) d /\
  (Forall range_valid d ->
   Forall range_valid (df_clean sampler sqrt d) /\
   Forall range_valid (filtered_df d)).
Proof.
  assert (H1 : subseq (df_clean sampler sqrt d) d) by apply filter_df_subseq.
  assert (H2 : subseq (filtered_df d) d) by apply filter_df_subseq.
  split; [exact H1|]. split; [exact H2|].
  intros Hvalid. rewrite Forall_forall in Hvalid.
  split; apply Forall_forall; intros r Hr; apply Hvalid.
  - exact (subseq_In _ _ _ H1 Hr).
  - exact (subseq_In _ _ _ H2 Hr).
Qed.

(** *** Missing carbon readings after ingestion *)

Lemma range_valid_carbon (r : Row) :
  range_valid r -> exists c, getField "carbon_percent" r = Some c.
Proof.
  intros H. apply range_valid_unfold in H.
  destruct H as (_ & _ & [c [Hc _]] & _). exists c. exact Hc.
Qed.

Lemma sample_from_subseq {A : Type} (i : nat) (fraction : Q) (seed : Z)
  (d : list A) :
  subseq (sample_from sampler i fraction seed d) d.
Proof.
  revert i. induction d as [|x d IH]; intros i; simpl.
  - constructor.
  - destruct (sampler fraction seed i); constructor; apply IH.
Qed.

Lemma In_df_interp (dc : DataFrame) (r' : Row) :
  In r' (df_interp dc) ->
  exists r, In r dc /\
            r' = setField "carbon_percent_interp" (interp_value r) r.
Proof.
  unfold df_interp, withColumn. rewrite in_map_iff.
  intros [r [Hr Hin]]. exists r. split; [exact Hin|].
  rewrite evalN_interp in Hr. symmetry. exact Hr.
Qed.

(** C9.  After the ingestion of any file, no row of the ingested frame, of
    the anomaly-filtered frame, of the predicate-filtered frame, of the
    interpolated frame or of its sample has a missing carbon_percent; the
    null test of the interpolation is false on every row it is applied to,
    and the interpolated column equals carbon_percent on every row. *)
Theorem carbon_never_missing (cells : list (list (option Q))) :
  let d := df cells in
  let dc := df_clean sampler sqrt d in
  (forall r, In r d \/ In r dc \/ In r (filtered_df dc) \/
             In r (df_interp dc) \/ In r (sample_pred sampler (df_interp dc)) ->
             getField "carbon_percent" r <> None) /\
  (forall r, In r dc ->
             evalB (isNull (col "carbon_percent")) r = Some false) /\
  (forall r, In r (df_interp dc) ->
             getField "carbon_percent_interp" r = getField "carbon_percent" r).
Proof.
  intros d dc.
  assert (Hd : forall r, In r d -> exists c, getField "carbon_percent" r = Some c).
  { intros r Hr. apply range_valid_carbon.
    apply df_In in Hr. apply Hr. }
  assert (Hdc : forall r, In r dc -> exists c, getField "carbon_percent" r = Some c).
  { intros r Hr. apply Hd.
    exact (subseq_In _ _ _ (filter_df_subseq _ d) Hr). }
  assert (Hdi : forall r, In r (df_interp dc) ->
            (exists c, getField "carbon_percent" r = Some c) /\
            getField "carbon_percent_interp" r = getField "carbon_percent" r).
  { intros r' Hr'. apply In_df_interp in Hr'. destruct Hr' as [r [Hr ->]].
    destruct (Hdc r Hr) as [c Hc].
    rewrite getField_setField_same, getField_setField_other by discriminate.
    unfold interp_value. rewrite Hc. split; [exists c|]; reflexivity. }
  split; [|split].
  - intros r [Hr|[Hr|[Hr|[Hr|Hr]]]].
    + destruct (Hd r Hr) as [c Hc]. congruence.
    + destruct (Hdc r Hr) as [c Hc]. congruence.
    + apply (subseq_In _ _ _ (filter_df_subseq _ dc)) in Hr.
      destruct (Hdc r Hr) as [c Hc]. congruence.
    + destruct (Hdi r Hr) as [[c Hc] _]. congruence.
    + apply (subseq_In _ _ _ (sample_from_subseq _ _ _ _)) in Hr.
      destruct (Hdi r Hr) as [[c Hc] _]. congruence.
  - intros r Hr. destruct (Hdc r Hr) as [c Hc]. simpl. rewrite Hc. reflexivity.
  - intros r Hr. apply Hdi. exact Hr.
Qed.

(** *** The train/test split *)




End Engine.

End SparkSpec.

(** ** The pandas notebook *)

Module PandasSpec.

Import Pandas.

Section Frame.

Context {row : Type} (row_eq_dec : forall x y : row, {x = y} + {x <> y}).

Lemma mem_true_iff (x : row) (l : list row) :
  mem row_eq_dec x l = true <-> In x l.
Proof. unfold mem. destruct (in_dec row_eq_dec x l); split; congruence. Qed.

Lemma mem_false_iff (x : row) (l : list row) :
  mem row_eq_dec x l = false <-> ~ In x l.
Proof. unfold mem. destruct (in_dec row_eq_dec x l); split; congruence. Qed.

(** *** Counting all occurrences of duplicated rows *)

Lemma marked_iff_twice (before t : list row) (x : row) :
  mem row_eq_dec x before || mem row_eq_dec x t =
  (2 <=? count_occ row_eq_dec (before ++ x :: t) x)%nat.
Proof.
  rewrite count_occ_app, count_occ_cons_eq by reflexivity.
  unfold mem.
  destruct (in_dec row_eq_dec x before) as [Hb|Hb];
    destruct (in_dec row_eq_dec x t) as [Ht|Ht]; cbn [orb];
    try apply (count_occ_In row_eq_dec) in Hb;
    try apply (count_occ_In row_eq_dec) in Ht;
    try apply (count_occ_not_In row_eq_dec) in Hb;
    try apply (count_occ_not_In row_eq_dec) in Ht;
    symmetry; try (apply Nat.leb_le; lia); apply Nat.leb_gt; lia.
Qed.

Lemma duplicated_all_filter (before : list row) (d : list (nat * row)) :
  boolean_index d (duplicated_all row_eq_dec before (map snd d)) =
  filter (fun p => (2 <=? count_occ row_eq_dec (before ++ map snd d) (snd p))%nat) d.
Proof.
  revert before. induction d as [|p d IH]; intros before; simpl; [reflexivity|].
  rewrite marked_iff_twice, IH.
  assert (Hext : filter
            (fun q => (2 <=? count_occ row_eq_dec ((snd p :: before) ++ map snd d) (snd q))%nat) d =
          filter
            (fun q => (2 <=? count_occ row_eq_dec (before ++ snd p :: map snd d) (snd q))%nat) d).
  { apply filter_ext. intros q. f_equal.
    rewrite !count_occ_app. simpl.
    destruct (row_eq_dec (snd p) (snd q)); lia. }
  rewrite Hext. reflexivity.
Qed.

(** *** Keeping first occurrences *)

(** [drop_duplicates] with the values already seen made explicit. *)
Definition drop_seen (seen : list row) (d : list (nat * row))
  : list (nat * row) :=
  boolean_index d (map negb (duplicated_first row_eq_dec seen (map snd d))).

Lemma drop_seen_cons (seen : list row) (p : nat * row) (d : list (nat * row)) :
  drop_seen seen (p :: d) =
  if mem row_eq_dec (snd p) seen
  then drop_seen (snd p :: seen) d
  else p :: drop_seen (snd p :: seen) d.
Proof.
  unfold drop_seen. simpl. destruct (mem row_eq_dec (snd p) seen); reflexivity.
Qed.

Lemma drop_seen_fresh (seen : list row) (d : list (nat * row)) (p : nat * row) :
  In p (drop_seen seen d) -> ~ In (snd p) seen.
Proof.
  revert seen. induction d as [|q d IH]; intros seen; [intros []|].
  rewrite drop_seen_cons.
  destruct (mem row_eq_dec (snd q) seen) eqn:E.
  - intros Hin Hs. apply (IH _ Hin). right. exact Hs.
  - intros [<-|Hin].
    + apply mem_false_iff. exact E.
    + intros Hs. apply (IH _ Hin). right. exact Hs.
Qed.

Lemma drop_seen_NoDup (seen : list row) (d : list (nat * row)) :
  NoDup (map snd (drop_seen seen d)).
Proof.
  revert seen. induction d as [|q d IH]; intros seen; [constructor|].
  rewrite drop_seen_cons.
  destruct (mem row_eq_dec (snd q) seen); [apply IH|].
  simpl. constructor; [|apply IH].
  rewrite in_map_iff. intros [p [Heq Hin]].
  apply drop_seen_fresh in Hin. apply Hin. left. symmetry. exact Heq.
Qed.

Lemma drop_seen_fixed (seen : list row) (d : list (nat * row)) :
  NoDup (map snd d) -> (forall p, In p d -> ~ In (snd p) seen) ->
  drop_seen seen d = d.
Proof.
  revert seen. induction d as [|q d IH]; intros seen Hnd Hfresh; [reflexivity|].
  rewrite drop_seen_cons.
  simpl in Hnd. apply NoDup_cons_iff in Hnd. destruct Hnd as [Hq Hnd].
  assert (E : mem row_eq_dec (snd q) seen = false).
  { apply mem_false_iff. apply Hfresh. left. reflexivity. }
  rewrite E. f_equal. apply IH; [exact Hnd|].
  intros p Hp [Heq|Hs].
  - apply Hq. rewrite Heq. apply in_map. exact Hp.
  - apply (Hfresh p); [right; exact Hp|exact Hs].
Qed.

(** The rows kept are exactly the rows before which no row has the same
    values (and whose values were not already seen). *)
Lemma drop_seen_first (seen : list row) (d : list (nat * row)) (p : nat * row) :
  In p (drop_seen seen d) <->
  exists l1 l2, d = l1 ++ p :: l2 /\
                ~ In (snd p) seen /\ ~ In (snd p) (map snd l1).
Proof.
  revert seen. induction d as [|q d IH]; intros seen.
  - split; [intros []|]. intros (l1 & l2 & H & _). destruct l1; discriminate.
  - rewrite drop_seen_cons. split.
    + intros Hin.
      assert (Hcase : (mem row_eq_dec (snd q) seen = false /\ p = q) \/
                      In p (drop_seen (snd q :: seen) d)).
      { destruct (mem row_eq_dec (snd q) seen) eqn:E; [right; exact Hin|].
        destruct Hin as [<-|Hin]; [left; split; reflexivity|right; exact Hin]. }
      destruct Hcase as [[E ->]|Hin'].
      * exists [], d. split; [reflexivity|]. split; [|intros []].
        apply mem_false_iff. exact E.
      * apply IH in Hin'. destruct Hin' as (l1 & l2 & -> & Hs & Hl1).
        exists (q :: l1), l2. split; [reflexivity|]. split.
        -- intros H. apply Hs. right. exact H.
        -- simpl. intros [H|H]; [apply Hs; left; exact H|exact (Hl1 H)].
    + intros (l1 & l2 & Heq & Hs & Hl1).
      destruct l1 as [|q' l1]; simpl in Heq; injection Heq as Hq Hd.
      * subst p d. apply mem_false_iff in Hs. rewrite Hs. left. reflexivity.
      * subst q' d.
        assert (Hin : In p (drop_seen (snd q :: seen) (l1 ++ p :: l2))).
        { apply IH. exists l1, l2. split; [reflexivity|]. split.
          - intros [H|H]; [apply Hl1; left; exact H|exact (Hs H)].
          - intros H. apply Hl1. right. exact H. }
        destruct (mem row_eq_dec (snd q) seen); [exact Hin|right; exact Hin].
Qed.

(** Every value has a first occurrence. *)
Lemma first_occurrence (d : list (nat * row)) (v : row) :
  In v (map snd d) ->
  exists p l1 l2, snd p = v /\ d = l1 ++ p :: l2 /\ ~ In v (map snd l1).
Proof.
  induction d as [|q d IH]; [intros []|].
  intros Hin.
  destruct (row_eq_dec (snd q) v) as [Heq|Hne].
  - exists q, [], d. repeat split; [exact Heq|intros []].
  - destruct Hin as [Heq|Hin]; [contradiction|].
    destruct (IH Hin) as (p & l1 & l2 & Hp & -> & Hl1).
    exists p, (q :: l1), l2. repeat split; [exact Hp|].
    simpl. intros [H|H]; [contradiction|exact (Hl1 H)].
Qed.

(** C4.  (a) The reported duplicate count is the number of rows whose values
    occur at least twice in the frame, every occurrence counted.  (b) The
    frame after [drop_duplicates] is an order-preserving selection of the
    rows; it holds each distinct value of the input exactly once; and its
    rows are exactly the first occurrences, the rows before which no row has
    the same values. *)
Theorem deduplicator_contract (d : list (nat * row)) :
  fst (duplicate_report row_eq_dec d) =
    length (filter (fun p => (2 <=? count_occ row_eq_dec (map snd d) (snd p))%nat) d) /\
  subseq (drop_duplicates row_eq_dec d) d /\
  NoDup (map snd (drop_duplicates row_eq_dec d)) /\
  (forall v, In v (map snd d) <-> In v (map snd (drop_duplicates row_eq_dec d))) /\
  (forall p, In p (drop_duplicates row_eq_dec d) <->
             exists l1 l2, d = l1 ++ p :: l2 /\ ~ In (snd p) (map snd l1)).
Proof.
  assert (Hfirst : forall p, In p (drop_duplicates row_eq_dec d) <->
             exists l1 l2, d = l1 ++ p :: l2 /\ ~ In (snd p) (map snd l1)).
  { intros p. change (drop_duplicates row_eq_dec d) with (drop_seen [] d).
    rewrite drop_seen_first. split.
    - intros (l1 & l2 & H1 & _ & H2). exists l1, l2. split; assumption.
    - intros (l1 & l2 & H1 & H2). exists l1, l2.
      split; [exact H1|]. split; [intros []|exact H2]. }
  assert (Hsub : subseq (drop_duplicates row_eq_dec d) d)
    by apply boolean_index_subseq.
  split; [|split; [exact Hsub|split; [apply (drop_seen_NoDup [] d)|split]]].
  - unfold duplicate_report, shape0, all_duplicates, duplicated. simpl.
    rewrite (duplicated_all_filter [] d). reflexivity.
  - intros v. split.
    + intros Hin. destruct (first_occurrence d v Hin) as (p & l1 & l2 & Hp & Hd & Hl1).
      rewrite <- Hp. apply in_map. apply Hfirst. exists l1, l2.
      split; [exact Hd|]. rewrite Hp. exact Hl1.
    + rewrite !in_map_iff. intros [p [Hp Hin]]. exists p.
      split; [exact Hp|]. exact (subseq_In _ _ _ Hsub Hin).
  - exact Hfirst.
Qed.

(** C5.  Removing duplicates from a frame whose duplicates were already
    removed returns that frame unchanged. *)
Theorem drop_duplicates_idempotent (d : list (nat * row)) :
  drop_duplicates row_eq_dec (drop_duplicates row_eq_dec d) =
  drop_duplicates row_eq_dec d.
Proof.
  change (drop_seen [] (drop_seen [] d) = drop_seen [] d).
  apply drop_seen_fixed.
  - apply drop_seen_NoDup.
  - intros p _ [].
Qed.

End Frame.

(** *** The mode of a column *)

Lemma count_of_Qeq (x y : Q) (l : list Q) :
  (x == y)%Q -> count_of x l = count_of y l.
Proof.
  intros Hxy. induction l as [|z l IH]; simpl; [reflexivity|].
  assert (E : Qeq_bool x z = Qeq_bool y z).
  { destruct (Qeq_bool x z) eqn:E1, (Qeq_bool y z) eqn:E2; try reflexivity.
    - apply Qeq_bool_iff in E1. rewrite Hxy in E1.
      apply Qeq_bool_iff in E1. congruence.
    - apply Qeq_bool_iff in E2. rewrite <- Hxy in E2.
      apply Qeq_bool_iff in E2. congruence. }
  rewrite E, IH. reflexivity.
Qed.

Lemma count_of_pos (x : Q) (l : list Q) :
  (0 < count_of x l)%nat -> exists y, In y l /\ (x == y)%Q.
Proof.
  induction l as [|z l IH]; simpl; [lia|].
  destruct (Qeq_bool x z) eqn:E.
  - intros _. exists z. split; [left; reflexivity|]. apply Qeq_bool_iff, E.
  - intros H. destruct (IH H) as [y [Hy Hxy]]. exists y. split; [right|]; assumption.
Qed.

Lemma unique_In (k : Q) (l : list Q) : In k (unique l) -> In k l.
Proof.
  induction l as [|x l IH]; simpl; [intros []|].
  intros [->|Hin]; [left; reflexivity|].
  apply filter_In in Hin. right. apply IH. apply Hin.
Qed.

Lemma unique_complete (v : Q) (l : list Q) :
  In v l -> exists k, In k (unique l) /\ (k == v)%Q.
Proof.
  induction l as [|x l IH]; simpl; [intros []|].
  intros [->|Hin].
  - exists v. split; [left|]; reflexivity.
  - destruct (IH Hin) as [k [Hk Hkv]].
    destruct (Qeq_bool x k) eqn:E.
    + exists x. split; [left; reflexivity|].
      apply Qeq_bool_iff in E. rewrite E. exact Hkv.
    + exists k. split; [|exact Hkv]. right. apply filter_In.
      split; [exact Hk|]. rewrite E. reflexivity.
Qed.

Lemma max_count_ge (keys vs : list Q) (k : Q) :
  In k keys -> (count_of k vs <= max_count keys vs)%nat.
Proof.
  unfold max_count. induction keys as [|x keys IH]; simpl; [intros []|].
  intros [->|Hin]; [lia|]. specialize (IH Hin). lia.
Qed.

Lemma max_count_attained (keys vs : list Q) :
  keys <> [] -> exists k, In k keys /\ count_of k vs = max_count keys vs.
Proof.
  unfold max_count. induction keys as [|x keys IH]; [congruence|].
  intros _. simpl.
  destruct keys as [|y keys].
  - exists x. split; [left; reflexivity|]. simpl. lia.
  - destruct IH as [k [Hk Hc]]; [discriminate|].
    destruct (Nat.max_spec (count_of x vs)
                (fold_right (fun k m => Nat.max (count_of k vs) m) O (y :: keys)))
      as [[_ ->]|[_ ->]].
    + exists k. split; [right; exact Hk|exact Hc].
    + exists x. split; [left|]; reflexivity.
Qed.

Lemma insert_sorted_In (x y : Q) (l : list Q) :
  In y (insert_sorted x l) <-> y = x \/ In y l.
Proof.
  induction l as [|z l IH]; simpl.
  - intuition congruence.
  - destruct (Qle_bool x z); simpl; [intuition congruence|].
    rewrite IH. intuition congruence.
Qed.

Lemma sort_In (y : Q) (l : list Q) : In y (sort l) <-> In y l.
Proof.
  induction l as [|x l IH]; simpl; [reflexivity|].
  rewrite insert_sorted_In, IH. intuition congruence.
Qed.

Lemma insert_sorted_sorted (x : Q) (l : list Q) :
  StronglySorted Qle l -> StronglySorted Qle (insert_sorted x l).
Proof.
  induction 1 as [|z l Hs IH Hall]; simpl.
  - constructor; constructor.
  - destruct (Qle_bool x z) eqn:E.
    + apply Qle_bool_iff in E. constructor; [constructor; assumption|].
      constructor; [exact E|].
      rewrite Forall_forall in Hall |- *. intros w Hw.
      apply Qle_trans with (y := z); [exact E|exact (Hall w Hw)].
    + constructor; [exact IH|].
      rewrite Forall_forall in Hall |- *. intros w Hw.
      apply insert_sorted_In in Hw. destruct Hw as [->|Hw]; [|exact (Hall w Hw)].
      apply Qlt_le_weak, Qlt_bool_iff. unfold Qlt_bool. rewrite E. reflexivity.
Qed.

Lemma sort_sorted (l : list Q) : StronglySorted Qle (sort l).
Proof.
  induction l as [|x l IH]; simpl; [constructor|].
  apply insert_sorted_sorted, IH.
Qed.

Lemma sort_head_least (l rest : list Q) (m : Q) :
  sort l = m :: rest -> forall x, In x l -> (m <= x)%Q.
Proof.
  intros Hs x Hx. apply sort_In in Hx. rewrite Hs in Hx.
  pose proof (sort_sorted l) as Hsorted. rewrite Hs in Hsorted.
  apply StronglySorted_inv in Hsorted. destruct Hsorted as [_ Hall].
  destruct Hx as [->|Hx]; [apply Qle_refl|].
  rewrite Forall_forall in Hall. exact (Hall x Hx).
Qed.

Lemma count_of_le_max (v : Q) (vs : list Q) :
  (count_of v vs <= max_count (unique vs) vs)%nat.
Proof.
  destruct (count_of v vs) eqn:E; [lia|]. rewrite <- E.
  destruct (count_of_pos v vs) as [y [Hy Hvy]]; [lia|].
  destruct (unique_complete y vs Hy) as [k [Hk Hky]].
  rewrite (count_of_Qeq v k) by (rewrite Hvy, Hky; reflexivity).
  apply max_count_ge, Hk.
Qed.

(** C6, as the code has it.  Over a column with no non-missing value the
    mode is missing (NaN).  Otherwise it is a non-missing value of the
    column with the highest occurrence count, and among the values with that
    count it is the smallest. *)
Theorem mode_smallest_most_frequent (s : Series) :
  (dropna s = [] -> mode_val s = None) /\
  (dropna s <> [] ->
   exists m, mode_val s = Some m /\ In m (dropna s) /\
     (forall v, count_of v (dropna s) <= count_of m (dropna s))%nat /\
     (forall v, In v (dropna s) ->
                count_of v (dropna s) = count_of m (dropna s) -> (m <= v)%Q)).
Proof.
  unfold mode_val, mode. split.
  - intros ->. reflexivity.
  - set (vs := dropna s). intros Hne.
    set (keys := unique vs). set (top := max_count keys vs).
    set (tops := filter (fun k => Nat.eqb (count_of k vs) top) keys).
    assert (Hkeys : keys <> []).
    { unfold keys. destruct vs; [congruence|discriminate]. }
    destruct (max_count_attained keys vs Hkeys) as [k0 [Hk0 Hc0]].
    assert (Hk0' : In k0 (sort tops)).
    { apply sort_In. apply filter_In. split; [exact Hk0|].
      apply Nat.eqb_eq. exact Hc0. }
    destruct (sort tops) as [|m rest] eqn:Es; [destruct Hk0'|].
    exists m. split; [reflexivity|].
    assert (Hm : In m tops) by (apply sort_In; rewrite Es; left; reflexivity).
    apply filter_In in Hm. destruct Hm as [Hmk Hmc]. apply Nat.eqb_eq in Hmc.
    split; [apply unique_In; exact Hmk|]. split.
    + intros v. rewrite Hmc. apply count_of_le_max.
    + intros v Hv Hcv.
      destruct (unique_complete v vs Hv) as [k [Hk Hkv]].
      rewrite <- Hkv.
      apply (sort_head_least tops rest m Es).
      apply filter_In. split; [exact Hk|].
      apply Nat.eqb_eq. rewrite (count_of_Qeq k v vs Hkv), Hcv. exact Hmc.
Qed.

(** C6 as stated fails: in the column 3, 1, 3, 1 both values occur twice and
    3 is met first, yet the mode is 1. *)
Lemma mode_tie_not_first_encountered :
  ~ (forall (s : Series) (m : Q),
       mode_val s = Some m ->
       forall v, In v (dropna s) ->
         count_of v (dropna s) = count_of m (dropna s) ->
         (first_index m (dropna s) <= first_index v (dropna s))%nat).
Proof.
  intros H.
  specialize (H [Some 3; Some 1; Some 3; Some 1]%Q 1%Q eq_refl 3%Q).
  simpl in H.
  assert (Hle : (1 <= 0)%nat) by (apply H; [left; reflexivity|reflexivity]).
  lia.
Qed.

End PandasSpec.

(** ** Further stages of the Spark pipeline *)

(** The sum of values inside a range lies between the range's ends taken as
    many times as there are values. *)
Lemma Qsum_bounds (lo hi : Q) (l : list Q) :
  Forall (fun v => lo <= v <= hi)%Q l ->
  (inject_Z (Z.of_nat (length l)) * lo <= Qsum l /\
   Qsum l <= inject_Z (Z.of_nat (length l)) * hi)%Q.
Proof.
  induction 1 as [|v l [Hlo Hhi] _ [IHlo IHhi]].
  - cbn [length Qsum fold_right Z.of_nat]. change (inject_Z 0) with 0%Q.
    split; apply Qle_lteq; right; ring.
  - cbn [length Qsum fold_right]. fold (Qsum l).
    rewrite Nat2Z.inj_succ. unfold Z.succ. rewrite inject_Z_plus.
    change (inject_Z 1) with 1%Q.
    set (c := inject_Z (Z.of_nat (length l))) in *.
    split.
    + apply Qle_trans with (y := (lo + c * lo)%Q).
      * apply Qle_lteq. right. ring.
      * apply Qplus_le_compat; assumption.
    + apply Qle_trans with (y := (hi + c * hi)%Q).
      * apply Qplus_le_compat; assumption.
      * apply Qle_lteq. right. ring.
Qed.

(** The average of one or more values inside a range is inside the range. *)
Lemma average_bounds (lo hi : Q) (l : list Q) :
  l <> [] -> Forall (fun v => lo <= v <= hi)%Q l ->
  (lo <= Qsum l / inject_Z (Z.of_nat (length l)) <= hi)%Q.
Proof.
  intros Hne Hall. destruct (Qsum_bounds lo hi l Hall) as [Hlo Hhi].
  assert (Hpos : (0 < inject_Z (Z.of_nat (length l)))%Q).
  { destruct l; [congruence|]. unfold Qlt. simpl. lia. }
  split.
  - apply Qle_shift_div_l; [exact Hpos|].
    rewrite Qmult_comm. exact Hlo.
  - apply Qle_shift_div_r; [exact Hpos|].
    rewrite Qmult_comm. exact Hhi.
Qed.

Module SparkStages.

Import Spark SparkSpec.

(** *** The compound predicate filter *)

Lemma keeps_wet_acid (r : Row) :
  keeps (AndCol (Gt (col "soil_moisture") (lit (Some 80%Q)))
                (Lt (col "pH") (lit (Some 5%Q)))) r = true <->
  exists m p, getField "soil_moisture" r = Some m /\
              getField "pH" r = Some p /\ (80 < m)%Q /\ (p < 5)%Q.
Proof.
  rewrite keeps_and, !keeps_true. simpl.
  destruct (getField "soil_moisture" r) as [m|];
    destruct (getField "pH" r) as [p|]; simpl;
    try (split; [intros [H1 H2]; discriminate
                |intros (m' & p' & H1 & H2 & _); discriminate]).
  split.
  - intros [H1 H2]. injection H1 as H1. injection H2 as H2.
    exists m, p. repeat split; try reflexivity; apply Qlt_bool_iff; assumption.
  - intros (m' & p' & H1 & H2 & Hm & Hp).
    injection H1 as <-. injection H2 as <-.
    split; f_equal; apply Qlt_bool_iff; assumption.
Qed.

Section Engine.

Variable sampler : Q -> Z -> nat -> bool.
Variable sqrt : Q -> Q.

(** X1.  The compound filter keeps exactly the rows whose soil moisture is
    present and above 80 and whose pH is present and below 5; applied after
    ingestion and the anomaly filter, every row it returns has soil moisture
    in (80, 100] and pH in [4, 5). *)
Theorem filtered_df_rows (dc : DataFrame) (cells : list (list (option Q))) :
  (forall r, In r (filtered_df dc) <->
             In r dc /\
             exists m p, getField "soil_moisture" r = Some m /\
                         getField "pH" r = Some p /\ (80 < m)%Q /\ (p < 5)%Q) /\
  (forall r, In r (filtered_df (df_clean sampler sqrt (df cells))) ->
             exists m p, getField "soil_moisture" r = Some m /\
                         getField "pH" r = Some p /\
                         (80 < m <= 100)%Q /\ (4 <= p < 5)%Q).
Proof.
  assert (Hiff : forall d r, In r (filtered_df d) <->
             In r d /\
             exists m p, getField "soil_moisture" r = Some m /\
                         getField "pH" r = Some p /\ (80 < m)%Q /\ (p < 5)%Q).
  { intros d r. unfold filtered_df. rewrite filter_df_In, keeps_wet_acid.
    reflexivity. }
  split; [apply Hiff|].
  intros r Hr. apply Hiff in Hr. destruct Hr as (Hr & m & p & Hm & Hp & Hlo & Hhi).
  apply (subseq_In _ _ _ (filter_df_subseq _ _)) in Hr.
  apply df_In in Hr. destruct Hr as [_ Hvalid].
  apply range_valid_unfold in Hvalid.
  destruct Hvalid as ([m' [Hm' [_ Hm100]]] & _ & _ & _ & _ & _ & [p' [Hp' [Hp4 _]]]).
  simpl in Hm', Hp', Hm100, Hp4.
  rewrite Hm in Hm'. injection Hm' as <-.
  rewrite Hp in Hp'. injection Hp' as <-.
  exists m, p. repeat split; assumption.
Qed.

(** *** The anomaly filter without usable estimates *)

(** A row can pass the anomaly filter only when both estimates exist and the
    estimated deviation is not zero. *)
Lemma df_clean_needs_estimates (d : DataFrame) :
  df_clean sampler sqrt d <> [] ->
  exists m s, mean_moisture sampler sqrt d = Some m /\
              stddev_moisture sampler sqrt d = Some s /\ ~ (s == 0)%Q.
Proof.
  intros Hne.
  destruct (df_clean sampler sqrt d) as [|r rest] eqn:E; [congruence|].
  assert (Hin : In r (df_clean sampler sqrt d)) by (rewrite E; left; reflexivity).
  unfold df_clean in Hin. rewrite filter_df_In, keeps_zscore in Hin.
  destruct Hin as (_ & v & m & s & _ & Hm & Hs & Hnz & _).
  exists m, s. repeat split; assumption.
Qed.

Lemma stddev_few (name : string) (d : DataFrame) :
  (length (column_values name d) < 2)%nat -> stddev sqrt name d = None.
Proof.
  unfold stddev. destruct (column_values name d) as [|x [|y l]]; simpl;
    intros H; try reflexivity; lia.
Qed.

(** X2.  When the seeded sample holds fewer than two soil-moisture values,
    the estimated deviation is missing and the anomaly filter returns the
    empty frame, whatever the input. *)
Theorem few_samples_empty (d : DataFrame) :
  (length (column_values "soil_moisture" (sample sampler (1 # 1000) 42 d)) < 2)%nat ->
  stddev_moisture sampler sqrt d = None /\ df_clean sampler sqrt d = [].
Proof.
  intros Hfew.
  assert (Hs : stddev_moisture sampler sqrt d = None).
  { unfold stddev_moisture, stats_row. simpl. apply stddev_few. exact Hfew. }
  split; [exact Hs|].
  destruct (df_clean sampler sqrt d) as [|r rest] eqn:E; [reflexivity|].
  destruct (df_clean_needs_estimates d) as (m & s & _ & Hs' & _).
  - rewrite E. discriminate.
  - rewrite Hs in Hs'. discriminate.
Qed.

End Engine.


(** *** Ordering *)

Lemma compare_field_antisym (x y : option Q) :
  compare_field y x = CompOpp (compare_field x y).
Proof.
  destruct x as [a|], y as [b|]; simpl; try reflexivity.
  symmetry. apply Qcompare_antisym.
Qed.

Lemma compare_field_eq_l (x y z : option Q) :
  compare_field x y = Datatypes.Eq -> compare_field x z = compare_field y z.
Proof.
  destruct x as [a|], y as [b|], z as [c|]; simpl; try discriminate;
    try reflexivity.
  intros H. apply Qeq_alt in H. rewrite H. reflexivity.
Qed.

Lemma compare_field_eq_r (x y z : option Q) :
  compare_field y z = Datatypes.Eq -> compare_field x z = compare_field x y.
Proof.
  destruct x as [a|], y as [b|], z as [c|]; simpl; try discriminate;
    try reflexivity.
  intros H. apply Qeq_alt in H. rewrite H. reflexivity.
Qed.

Lemma compare_field_lt_trans (x y z : option Q) :
  compare_field x y = Datatypes.Lt -> compare_field y z = Datatypes.Lt ->
  compare_field x z = Datatypes.Lt.
Proof.
  destruct x as [a|], y as [b|], z as [c|]; simpl; try discriminate;
    try reflexivity.
  intros H1 H2. apply Qlt_alt in H1. apply Qlt_alt in H2.
  apply Qlt_alt. exact (Qlt_trans _ _ _ H1 H2).
Qed.

Lemma row_leb_trans (cols : list string) (a b c : Row) :
  row_leb cols a b = true -> row_leb cols b c = true -> row_leb cols a c = true.
Proof.
  induction cols as [|k cols IH]; simpl; [reflexivity|].
  destruct (compare_field (getField k a) (getField k b)) eqn:Eab;
    destruct (compare_field (getField k b) (getField k c)) eqn:Ebc;
    try discriminate; intros H1 H2.
  - rewrite (compare_field_eq_l _ _ _ Eab), Ebc. apply IH; assumption.
  - rewrite (compare_field_eq_l _ _ _ Eab), Ebc. reflexivity.
  - rewrite (compare_field_eq_r _ _ _ Ebc), Eab. reflexivity.
  - rewrite (compare_field_lt_trans _ _ _ Eab Ebc). reflexivity.
Qed.

Lemma row_leb_total (cols : list string) (a b : Row) :
  row_leb cols a b = false -> row_leb cols b a = true.
Proof.
  induction cols as [|k cols IH]; simpl; [discriminate|].
  rewrite (compare_field_antisym (getField k a) (getField k b)).
  destruct (compare_field (getField k a) (getField k b)); simpl;
    try discriminate; try reflexivity.
  exact IH.
Qed.

Lemma insert_row_perm (cols : list string) (x : Row) (l : DataFrame) :
  Permutation (insert_row cols x l) (x :: l).
Proof.
  induction l as [|y l IH]; simpl; [reflexivity|].
  destruct (row_leb cols x y); [reflexivity|].
  apply Permutation_trans with (l' := y :: x :: l).
  - constructor. exact IH.
  - apply perm_swap.
Qed.

Lemma orderBy_perm (cols : list string) (d : DataFrame) :
  Permutation (orderBy cols d) d.
Proof.
  induction d as [|r d IH]; simpl; [constructor|].
  apply Permutation_trans with (l' := r :: orderBy cols d).
  - apply insert_row_perm.
  - constructor. exact IH.
Qed.

Lemma insert_row_sorted (cols : list string) (x : Row) (l : DataFrame) :
  StronglySorted (fun a b => row_leb cols a b = true) l ->
  StronglySorted (fun a b => row_leb cols a b = true) (insert_row cols x l).
Proof.
  induction 1 as [|y l Hs IH Hall]; simpl.
  - constructor; constructor.
  - destruct (row_leb cols x y) eqn:E.
    + constructor; [constructor; assumption|].
      constructor; [exact E|].
      rewrite Forall_forall in Hall |- *. intros z Hz.
      exact (row_leb_trans cols x y z E (Hall z Hz)).
    + constructor; [exact IH|].
      apply (Permutation_Forall (Permutation_sym (insert_row_perm cols x l))).
      constructor; [apply row_leb_total; exact E|exact Hall].
Qed.

Lemma orderBy_sorted (cols : list string) (d : DataFrame) :
  StronglySorted (fun a b => row_leb cols a b = true) (orderBy cols d).
Proof.
  induction d as [|r d IH]; simpl; [constructor|].
  apply insert_row_sorted, IH.
Qed.

(** X3.  The sorted sample is a rearrangement of an order-preserving
    selection of the cleaned rows, and every row of it precedes the rows
    after it in the order by timestamp, then soil moisture, then
    temperature. *)
Theorem sorted_sample_ordered (sampler : Q -> Z -> nat -> bool)
  (dc : DataFrame) :
  subseq (sample sampler (1 # 10000) 42 dc) dc /\
  Permutation (sorted_sample sampler dc) (sample sampler (1 # 10000) 42 dc) /\
  StronglySorted
    (fun a b =>
       row_leb ["timestamp"; "soil_moisture"; "temperature"]%string a b = true)
    (sorted_sample sampler dc).
Proof.
  split; [apply sample_from_subseq|].
  split; [apply orderBy_perm|apply orderBy_sorted].
Qed.

(** *** Feature assembly *)

Lemma all_some_None {A : Type} (l : list (option A)) :
  all_some l = None <-> In None l.
Proof.
  induction l as [|[x|] l IH]; simpl.
  - split; [discriminate|intros []].
  - destruct (all_some l); simpl.
    + split; [discriminate|]. intros [H|H]; [discriminate|].
      apply IH in H. discriminate.
    + split; [|reflexivity]. intros _. right. apply IH. reflexivity.
  - split; [|reflexivity]. intros _. left. reflexivity.
Qed.

(** X4.  The feature assembly fails exactly when some row misses one of the
    input columns. *)
Theorem transform_fails (inputCols : list string) (d : DataFrame) :
  transform inputCols d = None <->
  exists r c, In r d /\ In c inputCols /\ getField c r = None.
Proof.
  unfold transform. rewrite all_some_None, in_map_iff.
  split.
  - intros [r [Hr Hin]]. unfold assemble in Hr.
    destruct (all_some (map (fun c => getField c r) inputCols)) eqn:E;
      [discriminate|].
    apply all_some_None, in_map_iff in E. destruct E as [c [Hc Hcin]].
    exists r, c. repeat split; assumption.
  - intros (r & c & Hr & Hc & Hnone). exists r. split; [|exact Hr].
    unfold assemble.
    assert (E : all_some (map (fun c => getField c r) inputCols) = None).
    { apply all_some_None, in_map_iff. exists c. split; assumption. }
    rewrite E. reflexivity.
Qed.

Lemma transform_present (d : DataFrame) :
  (forall r, In r d -> exists m t, getField "soil_moisture" r = Some m /\
                                   getField "temperature" r = Some t) ->
  exists dv, df_vector d = Some dv /\ map fst dv = d /\
    forall r x, In (r, x) dv ->
      exists m t, x = [m; t] /\ getField "soil_moisture" r = Some m /\
                  getField "temperature" r = Some t.
Proof.
  unfold df_vector, transform.
  induction d as [|r d IH]; intros Hall.
  - exists []. repeat split. intros r x [].
  - destruct IH as (dv & Hdv & Hfst & Hrows).
    { intros r' Hr'. apply Hall. right. exact Hr'. }
    destruct (Hall r (or_introl eq_refl)) as (m & t & Hm & Ht).
    exists ((r, [m; t]) :: dv). split; [|split].
    + cbn [map all_some]. unfold assemble at 1. cbn [map all_some].
      rewrite Hm, Ht. cbn [option_map all_some]. rewrite Hdv. reflexivity.
    + simpl. rewrite Hfst. reflexivity.
    + intros r' x [Heq|Hin]; [|exact (Hrows r' x Hin)].
      injection Heq as <- <-. exists m, t. repeat split; assumption.
Qed.

Section Pipeline.

Variable sampler : Q -> Z -> nat -> bool.
Variable sqrt : Q -> Q.
Variable percentile_approx : list Q -> Q -> Z -> option Q.
Variable percentile_approx_array : list Q -> list Q -> Z -> option (list Q).
Variable format_2f : Q -> string.

(** X5.  After the ingestion of any file, the feature assembly of the
    regression stage does not fail: it returns the sampled interpolated rows
    in order, each with the vector of its soil moisture and temperature. *)
Theorem df_vector_defined (cells : list (list (option Q))) :
  let sp := sample_pred sampler (df_interp (df_clean sampler sqrt (df cells))) in
  exists dv, df_vector sp = Some dv /\ map fst dv = sp /\
    forall r x, In (r, x) dv ->
      exists m t, x = [m; t] /\ getField "soil_moisture" r = Some m /\
                  getField "temperature" r = Some t.
Proof.
  intros sp. apply transform_present.
  intros r Hr.
  apply (subseq_In _ _ _ (sample_from_subseq sampler _ _ _ _)) in Hr.
  apply In_df_interp in Hr. destruct Hr as [r0 [Hr0 ->]].
  apply (subseq_In _ _ _ (filter_df_subseq _ _)) in Hr0.
  apply df_In in Hr0. destruct Hr0 as [_ Hvalid].
  apply range_valid_unfold in Hvalid.
  destruct Hvalid as ([m [Hm _]] & _ & _ & _ & _ & [t [Ht _]] & _).
  simpl in Hm, Ht.
  exists m, t.
  rewrite !getField_setField_other by discriminate.
  split; assumption.
Qed.

(** *** The statistics of Task 4 *)

Lemma column_values_valid (c : string * (Q * Q)) (d : DataFrame) :
  In c declared_ranges -> Forall range_valid d ->
  Forall (fun v => fst (snd c) <= v <= snd (snd c))%Q (column_values (fst c) d) /\
  length (column_values (fst c) d) = length d.
Proof.
  intros Hc. induction 1 as [|r d Hr _ [IHall IHlen]]; simpl.
  - split; [constructor|reflexivity].
  - unfold range_valid in Hr. rewrite Forall_forall in Hr.
    destruct (Hr c Hc) as [v [Hv Hrange]]. rewrite Hv. simpl.
    split; [constructor; assumption|rewrite IHlen; reflexivity].
Qed.

Lemma mean_in_range (c : string * (Q * Q)) (d : DataFrame) :
  In c declared_ranges -> Forall range_valid d -> d <> [] ->
  exists m, mean (fst c) d = Some m /\ (fst (snd c) <= m <= snd (snd c))%Q.
Proof.
  intros Hc Hvalid Hne.
  destruct (column_values_valid c d Hc Hvalid) as [Hall Hlen].
  unfold mean, count_Q.
  destruct (column_values (fst c) d) as [|v vs] eqn:E.
  - destruct d; [congruence|discriminate].
  - eexists. split; [reflexivity|].
    apply average_bounds; [discriminate|exact Hall].
Qed.

Lemma df_clean_valid (cells : list (list (option Q))) :
  Forall range_valid (df_clean sampler sqrt (df cells)).
Proof.
  apply Forall_forall. intros r Hr.
  apply (subseq_In _ _ _ (filter_df_subseq _ _)) in Hr.
  apply df_In in Hr. apply Hr.
Qed.

(** X6.  After the ingestion of any file, the means Task 4 reports are
    missing when the cleaned frame is empty; otherwise the mean of
    carbon_percent lies in [0, 10] and the mean of nitrogen_percent in
    [0, 5]. *)
Theorem means_in_range (cells : list (list (option Q))) :
  let dc := df_clean sampler sqrt (df cells) in
  let st := stats sqrt percentile_approx percentile_approx_array dc in
  (dc = [] -> carbon_mean st = None /\ nitrogen_mean st = None) /\
  (dc <> [] ->
   exists mc mn, carbon_mean st = Some mc /\ (0 <= mc <= 10)%Q /\
                 nitrogen_mean st = Some mn /\ (0 <= mn <= 5)%Q).
Proof.
  intros dc st. split.
  - intros Hnil. unfold st. rewrite Hnil. split; reflexivity.
  - intros Hne.
    destruct (mean_in_range ("carbon_percent"%string, (0, 10)%Q) dc)
      as [mc [Hmc Hrc]];
      [simpl; tauto|apply df_clean_valid|exact Hne|].
    destruct (mean_in_range ("nitrogen_percent"%string, (0, 5)%Q) dc)
      as [mn [Hmn Hrn]];
      [simpl; tauto|apply df_clean_valid|exact Hne|].
    exists mc, mn. repeat split; try assumption; try apply Hrc; apply Hrn.
Qed.


End Pipeline.

End SparkStages.

(** ** Further properties of the pandas notebook *)

Lemma subseq_length {A : Type} (l1 l2 : list A) :
  subseq l1 l2 -> (length l1 <= length l2)%nat.
Proof. induction 1; simpl; lia. Qed.

Lemma subseq_full {A : Type} (l1 l2 : list A) :
  subseq l1 l2 -> (length l2 <= length l1)%nat -> l1 = l2.
Proof.
  induction 1 as [|x l1 l2 Hs IH|x l1 l2 Hs IH]; simpl; intros Hlen.
  - reflexivity.
  - f_equal. apply IH. lia.
  - apply subseq_length in Hs. lia.
Qed.

Module PandasStages.

Import Pandas PandasSpec.

Section Frame.

Context {row : Type} (row_eq_dec : forall x y : row, {x = y} + {x <> y}).

(** *** The two reported numbers *)

Lemma removed_are_marked (seen : list row) (d : list (nat * row)) :
  (length d <=
   length (drop_seen row_eq_dec seen d) +
   length (boolean_index d (duplicated_all row_eq_dec seen (map snd d))))%nat.
Proof.
  revert seen. induction d as [|p d IH]; intros seen; [simpl; lia|].
  rewrite drop_seen_cons. cbn [map duplicated_all boolean_index].
  specialize (IH (snd p :: seen)).
  destruct (mem row_eq_dec (snd p) seen); cbn [orb length].
  - lia.
  - destruct (mem row_eq_dec (snd p) (map snd d)); cbn [length]; lia.
Qed.

Lemma occurrences_are_marked (f : nat * row -> bool) (v : row)
  (d : list (nat * row)) :
  (forall p, snd p = v -> f p = true) ->
  (count_occ row_eq_dec (map snd d) v <= length (filter f d))%nat.
Proof.
  intros Hf. induction d as [|p d IH]; simpl; [lia|].
  destruct (row_eq_dec (snd p) v) as [Heq|Hne].
  - rewrite (Hf p Heq). simpl. lia.
  - destruct (f p); simpl; lia.
Qed.

(** X8.  Of the two numbers the cell prints, the duplicate count is zero or
    at least two; it is zero exactly when [drop_duplicates] leaves the frame
    as it is; and every removed row is among the counted ones, so the rows
    kept and the rows counted together are at least the rows of the frame. *)
Theorem duplicate_report_consistent (d : list (nat * row)) :
  let dups := fst (duplicate_report row_eq_dec d) in
  let kept := snd (duplicate_report row_eq_dec d) in
  (dups = 0 \/ 2 <= dups)%nat /\
  (dups = 0%nat <-> drop_duplicates row_eq_dec d = d) /\
  (kept <= length d <= kept + dups)%nat.
Proof.
  cbn zeta. unfold duplicate_report, shape0. cbn [fst snd].
  assert (Hsub : subseq (drop_duplicates row_eq_dec d) d)
    by apply boolean_index_subseq.
  assert (Hcover : (length d <= length (drop_duplicates row_eq_dec d) +
                    length (all_duplicates row_eq_dec d))%nat)
    by apply (removed_are_marked [] d).
  assert (Hfilter : all_duplicates row_eq_dec d =
            filter (fun p => (2 <=? count_occ row_eq_dec (map snd d) (snd p))%nat) d)
    by apply (duplicated_all_filter row_eq_dec [] d).
  split; [|split].
  - rewrite Hfilter.
    destruct (filter (fun p => (2 <=? count_occ row_eq_dec (map snd d) (snd p))%nat) d)
      as [|p rest] eqn:E; [left; reflexivity|right].
    assert (Hp : In p (filter (fun p => (2 <=? count_occ row_eq_dec (map snd d) (snd p))%nat) d))
      by (rewrite E; left; reflexivity).
    apply filter_In in Hp. destruct Hp as [_ Hp]. apply Nat.leb_le in Hp.
    rewrite <- E.
    apply Nat.le_trans with (m := count_occ row_eq_dec (map snd d) (snd p));
      [exact Hp|].
    apply occurrences_are_marked. intros q Hq. rewrite Hq.
    apply Nat.leb_le. exact Hp.
  - split.
    + intros Hzero. apply subseq_full; [exact Hsub|]. lia.
    + intros Hsame.
      assert (Hnd : NoDup (map snd d)).
      { rewrite <- Hsame. apply (drop_seen_NoDup row_eq_dec [] d). }
      rewrite Hfilter.
      assert (Hnil : filter
                (fun p => (2 <=? count_occ row_eq_dec (map snd d) (snd p))%nat) d = []).
      { pose proof (proj1 (NoDup_count_occ row_eq_dec (map snd d)) Hnd) as Hc.
        destruct (filter
          (fun p => (2 <=? count_occ row_eq_dec (map snd d) (snd p))%nat) d)
          as [|q rest] eqn:E; [reflexivity|exfalso].
        assert (Hq : In q (filter
          (fun p => (2 <=? count_occ row_eq_dec (map snd d) (snd p))%nat) d))
          by (rewrite E; left; reflexivity).
        apply filter_In in Hq. destruct Hq as [_ Hq]. apply Nat.leb_le in Hq.
        specialize (Hc (snd q)). lia. }
      rewrite Hnil. reflexivity.
  - split; [apply subseq_length; exact Hsub|exact Hcover].
Qed.

(** *** The labels of the surviving rows *)

Lemma range_index_split (rows : list row) (k : nat)
  (l1 l2 : list (nat * row)) (p : nat * row) :
  combine (seq k (length rows)) rows = l1 ++ p :: l2 ->
  fst p = (k + length l1)%nat /\ rows = map snd l1 ++ snd p :: map snd l2.
Proof.
  revert k l1. induction rows as [|x rows IH]; intros k l1 H.
  - destruct l1; discriminate.
  - cbn [length seq combine] in H. destruct l1 as [|q l1].
    + injection H as <- <-. cbn [fst snd length app map]. split; [lia|].
      f_equal. clear IH. revert k.
      induction rows as [|y rows IHr]; intros k; [reflexivity|].
      cbn [length seq combine map snd]. f_equal. apply IHr.
    + injection H as <- H. apply IH in H. destruct H as [Hk Hrows].
      cbn [length app map snd]. split; [lia|]. f_equal. exact Hrows.
Qed.

Lemma range_index_nth (rows : list row) (k i : nat) (v : row) :
  nth_error rows i = Some v ->
  exists l1 l2, combine (seq k (length rows)) rows = l1 ++ (k + i, v)%nat :: l2 /\
                map snd l1 = firstn i rows.
Proof.
  revert k i. induction rows as [|x rows IH]; intros k i H.
  - destruct i; discriminate.
  - cbn [length seq combine]. destruct i as [|i].
    + injection H as <-. exists [], (combine (seq (S k) (length rows)) rows).
      rewrite Nat.add_0_r. split; reflexivity.
    + destruct (IH (S k) i H) as (l1 & l2 & Heq & Hfst).
      exists ((k, x) :: l1), l2. split.
      * rewrite Heq. replace (k + S i)%nat with (S k + i)%nat by lia.
        reflexivity.
      * cbn [map snd firstn]. f_equal. exact Hfst.
Qed.

Lemma In_firstn_nth (l : list row) (i : nat) (v : row) :
  In v (firstn i l) <-> exists j, (j < i)%nat /\ nth_error l j = Some v.
Proof.
  revert l. induction i as [|i IH]; intros l.
  - simpl. split; [intros []|intros [j [Hj _]]; lia].
  - destruct l as [|x l]; cbn [firstn].
    + split; [intros []|]. intros [j [_ Hj]]. destruct j; discriminate.
    + split.
      * intros [->|Hin].
        -- exists 0%nat. split; [lia|reflexivity].
        -- apply IH in Hin. destruct Hin as [j [Hj Hn]].
           exists (S j). split; [lia|exact Hn].
      * intros [[|j] [Hj Hn]].
        -- injection Hn as ->. left. reflexivity.
        -- right. apply IH. exists j. split; [lia|exact Hn].
Qed.

(** X9.  After [read_csv] and [drop_duplicates], a row with label [i] and
    values [v] is in the frame exactly when line [i] of the file holds [v]
    and no earlier line does: survivors keep the position of their first
    occurrence as label. *)
Theorem drop_duplicates_labels (rows : list row) (i : nat) (v : row) :
  In (i, v) (drop_duplicates row_eq_dec (read_csv rows)) <->
  nth_error rows i = Some v /\
  forall j, (j < i)%nat -> nth_error rows j <> Some v.
Proof.
  change (drop_duplicates row_eq_dec (read_csv rows))
    with (drop_seen row_eq_dec [] (read_csv rows)).
  rewrite drop_seen_first. unfold read_csv. split.
  - intros (l1 & l2 & Hsplit & _ & Hfresh).
    apply range_index_split in Hsplit. cbn [fst snd] in Hsplit, Hfresh.
    destruct Hsplit as [Hi Hrows]. simpl in Hi. subst i.
    assert (Hlen : length l1 = length (map snd l1)) by (symmetry; apply length_map).
    split.
    + rewrite Hrows, Hlen, nth_error_app2 by lia.
      rewrite Nat.sub_diag. reflexivity.
    + intros j Hj Hnth. apply Hfresh.
      rewrite Hrows, nth_error_app1 in Hnth by lia.
      exact (nth_error_In _ _ Hnth).
  - intros [Hnth Hfirst].
    destruct (range_index_nth rows 0 i v Hnth) as (l1 & l2 & Hsplit & Hfst).
    exists l1, l2. split; [exact Hsplit|]. split; [intros []|].
    cbn [snd]. rewrite Hfst. intros Hin.
    apply In_firstn_nth in Hin. destruct Hin as [j [Hj Hn]].
    exact (Hfirst j Hj Hn).
Qed.

End Frame.


(** *** Sorting, the median and the three statistics *)

Lemma insert_sorted_perm (x : Q) (l : list Q) :
  Permutation (insert_sorted x l) (x :: l).
Proof.
  induction l as [|y l IH]; simpl; [reflexivity|].
  destruct (Qle_bool x y); [reflexivity|].
  apply Permutation_trans with (l' := y :: x :: l).
  - constructor. exact IH.
  - apply perm_swap.
Qed.

Lemma sort_perm (l : list Q) : Permutation (sort l) l.
Proof.
  induction l as [|x l IH]; simpl; [constructor|].
  apply Permutation_trans with (l' := x :: sort l).
  - apply insert_sorted_perm.
  - constructor. exact IH.
Qed.






Lemma mode_val_defined (s : Series) :
  dropna s <> [] -> exists m, mode_val s = Some m /\ In m (dropna s).
Proof.
  unfold mode_val, mode. set (vs := dropna s). intros Hne.
  assert (Hkeys : unique vs <> []) by (destruct vs; [congruence|discriminate]).
  destruct (max_count_attained (unique vs) vs Hkeys) as [k [Hk Hc]].
  assert (Hin : In k (sort (filter
            (fun k => Nat.eqb (count_of k vs) (max_count (unique vs) vs)) (unique vs)))).
  { apply sort_In, filter_In. split; [exact Hk|]. apply Nat.eqb_eq. exact Hc. }
  destruct (sort _) as [|m rest] eqn:E; [destruct Hin|].
  exists m. split; [reflexivity|].
  assert (Hm : In m (m :: rest)) by (left; reflexivity).
  rewrite <- E in Hm. apply sort_In, filter_In in Hm.
  apply unique_In. apply Hm.
Qed.

(** X11.  [compute_stats] returns NaN for the mean, the median and the mode
    alike when the column has no non-missing value, and three numbers
    otherwise. *)
Theorem compute_stats_nan (column : Series) :
  (dropna column = [] -> compute_stats column = (None, None, None)) /\
  (dropna column <> [] ->
   exists a b c, compute_stats column = (Some a, Some b, Some c)).
Proof.
  unfold compute_stats. split.
  - intros Hnil. unfold mean, median, mode_val, mode. rewrite Hnil. reflexivity.
  - intros Hne.
    destruct (mode_val_defined column Hne) as [c [Hc _]].
    assert (Hmean : exists a, mean column = Some a).
    { unfold mean. destruct (dropna column); [congruence|]. eexists. reflexivity. }
    assert (Hmed : exists b, median column = Some b).
    { unfold median.
      assert (Hlen : length (sort (dropna column)) = length (dropna column))
        by apply Permutation_length, sort_perm.
      destruct (length (sort (dropna column))) as [|n] eqn:E.
      - destruct (dropna column); [congruence|discriminate].
      - destruct (Nat.even (S n)); eexists; reflexivity. }
    destruct Hmean as [a Ha]. destruct Hmed as [b Hb].
    exists a, b, c. rewrite Ha, Hb, Hc. reflexivity.
Qed.


(** *** The derived column *)








End PandasStages.

(** ** The statements at concrete inputs *)

Module Checks.

Import Spark Instances.

(** The first, fourth and last lines of [six_cells], and the line without a
    carbon reading, as rows. *)
Definition first_row : Row :=
  combine schema [Some 1; Some 10; Some 20; Some 5; Some 2; Some 40; Some 20; Some 7]%Q.

Definition wet_row : Row :=
  combine schema [Some 4; Some 100; Some 30; Some 4; Some 3; Some 60; Some 25; Some 6]%Q.

Definition gap_row : Row :=
  combine schema [Some 5; Some 30; Some 30; None; Some 3; Some 60; Some 25; Some 6]%Q.

Definition carbon_row : Row :=
  combine schema [Some 6; Some 30; Some 30; Some 11; Some 3; Some 60; Some 25; Some 6]%Q.

Example ingest_six_cells :
  map (getField "timestamp") (df six_cells) = [Some 1; Some 2; Some 3; Some 4]%Q.
Proof. reflexivity. Qed.

(** Sampling the rows with soil moisture 10, 20 and 30 estimates the mean 20
    and the deviation 10: the row with soil moisture 100 has z-score 8 and is
    dropped, the other three are retained. *)
Example anomaly_filter_six_cells :
  stats_row sample_head Qsqrt (df six_cells) = (Some (60 # 3), Some 10)%Q /\
  map (getField "timestamp") (df_clean sample_head Qsqrt (df six_cells)) =
    [Some 1; Some 2; Some 3]%Q.
Proof. split; reflexivity. Qed.

Lemma outlier_filter_keeps_first_row :
  In first_row (df_clean sample_head Qsqrt (df six_cells)).
Proof.
  apply (proj2 (proj1 (SparkSpec.outlier_filter_zscore
                         sample_head Qsqrt (df six_cells) first_row))).
  split.
  - vm_compute. left. reflexivity.
  - exists 10%Q, (60 # 3)%Q, 10%Q.
    split; [reflexivity|]. split; [reflexivity|]. split; [reflexivity|].
    split; [discriminate|].
    split; apply Qle_bool_iff; reflexivity.
Defined.



(** The line with carbon 11 is parsed and is not ingested. *)
Lemma ingestion_rejects_carbon_row :
  In carbon_row (read_csv six_cells) /\ ~ In carbon_row (df six_cells).
Proof.
  assert (Hin : In carbon_row (read_csv six_cells)).
  { simpl. do 5 right. left. reflexivity. }
  split; [exact Hin|].
  apply (proj2 (SparkSpec.ingestion_ranges six_cells) carbon_row
               ("carbon_percent"%string, (0, 10)%Q)).
  - exact Hin.
  - simpl. right. right. left. reflexivity.
  - exists 11%Q. split; [reflexivity|]. right. reflexivity.
Defined.

(** A row without a carbon reading: the interpolation gives 30 * 0.05 and
    leaves the eight columns as they were. *)
Lemma interpolate_gap_row :
  exists r', nth_error (df_interp [gap_row]) 0 = Some r' /\
    getField "carbon_percent_interp" r' = SparkSpec.interp_value gap_row /\
    forall name, name <> "carbon_percent_interp"%string ->
                 getField name r' = getField name gap_row.
Proof.
  apply (proj2 (SparkSpec.interpolate_frame [gap_row]) 0%nat gap_row).
  reflexivity.
Defined.

Example interp_value_rows :
  SparkSpec.interp_value gap_row = Some (30 * (5 # 100))%Q /\
  SparkSpec.interp_value first_row = Some 5%Q /\
  df_interp [gap_row] =
    [gap_row ++ [("carbon_percent_interp"%string, Some (30 * (5 # 100))%Q)]].
Proof. repeat split; reflexivity. Qed.

(** After the ingestion of [six_cells] the interpolated column of the first
    row is its carbon reading. *)
Lemma interpolated_first_row :
  getField "carbon_percent_interp"
    (setField "carbon_percent_interp" (Some 5%Q) first_row) =
  getField "carbon_percent"
    (setField "carbon_percent_interp" (Some 5%Q) first_row).
Proof.
  apply (proj2 (proj2 (SparkSpec.carbon_never_missing
                         sample_head Qsqrt six_cells))).
  vm_compute. left. reflexivity.
Defined.

(** Both filters select rows of the ingested [six_cells] in order. *)
Lemma filters_select_six_cells :
  subseq (df_clean sample_head Qsqrt (df six_cells)) (df six_cells) /\
  subseq (filtered_df (df six_cells)) (df six_cells).
Proof.
  split.
  - apply (proj1 (SparkSpec.filters_only_remove sample_head Qsqrt (df six_cells))).
  - apply (proj1 (proj2 (SparkSpec.filters_only_remove
                           sample_head Qsqrt (df six_cells)))).
Defined.



Example train_test_ten :
  train_test lcg [1; 2; 3; 4; 5; 6; 7; 8; 9; 10]%nat =
  Some ([1; 2; 3; 4; 6; 7; 8; 9; 10], [5])%nat.
Proof. reflexivity. Qed.

Import Pandas.

(** In the column 3, 1, 3, 1 the mode is a value of highest count and the
    smallest such. *)
Lemma mode_of_tied_column :
  exists m, mode_val [Some 3; Some 1; Some 3; Some 1]%Q = Some m /\
    In m [3; 1; 3; 1]%Q /\
    (forall v, count_of v [3; 1; 3; 1]%Q <= count_of m [3; 1; 3; 1]%Q)%nat /\
    (forall v, In v [3; 1; 3; 1]%Q ->
               count_of v [3; 1; 3; 1]%Q = count_of m [3; 1; 3; 1]%Q -> (m <= v)%Q).
Proof.
  apply (proj2 (PandasSpec.mode_smallest_most_frequent
                  [Some 3; Some 1; Some 3; Some 1]%Q)).
  discriminate.
Defined.

Example mode_val_tied :
  mode_val [Some 3; Some 1; Some 3; Some 1]%Q = Some 1%Q.
Proof. reflexivity. Qed.

Example compute_stats_literal :
  compute_stats [Some 1; Some 2; Some 2; Some 3; Some 4]%Q =
  (Some (12 # 5), Some 2, Some 2)%Q.
Proof. reflexivity. Qed.

(** Rows 7, 8, 7, 9, 8: four rows are duplicated, the first occurrences
    survive under their labels, and a second pass changes nothing. *)
Example duplicates_of_five :
  duplicate_report Z.eq_dec (read_csv [7; 8; 7; 9; 8]%Z) = (4, 3)%nat /\
  drop_duplicates Z.eq_dec (read_csv [7; 8; 7; 9; 8]%Z) =
    [(0%nat, 7%Z); (1%nat, 8%Z); (3%nat, 9%Z)].
Proof. split; reflexivity. Qed.

End Checks.

(** ** The further properties at concrete inputs *)

Module StageChecks.

Import Spark Instances.

(** A sampler that accepts the first row only. *)
Definition sample_one (fraction : Q) (seed : Z) (i : nat) : bool :=
  (i =? 0)%nat.

(** Stand-ins for the engine's percentile sketch and for the number
    rendering: the nearest-rank value of the sorted column, and a fixed
    text. *)
Definition rank_percentile (vs : list Q) (p : Q) (accuracy : Z) : option Q :=
  nth_error (Pandas.sort vs)
            (Z.to_nat (Qnum p * Z.of_nat (length vs - 1) / Z.pos (Qden p))).

Definition rank_percentiles (vs ps : list Q) (accuracy : Z) : option (list Q) :=
  match vs with
  | [] => None
  | _ => all_some (map (fun p => rank_percentile vs p accuracy) ps)
  end.

Definition render (q : Q) : string := "#.##".

(** With a one-row sample the deviation is missing and nothing survives the
    anomaly filter. *)
Lemma few_samples_empty_six_cells :
  stddev_moisture sample_one Qsqrt (df six_cells) = None /\
  df_clean sample_one Qsqrt (df six_cells) = [].
Proof.
  apply (SparkStages.few_samples_empty sample_one Qsqrt (df six_cells)).
  vm_compute. lia.
Defined.


(** With the three-row sample the cleaned frame has three rows and both
    lines are printed. *)
Example print_stats_six_cells :
  print_stats render
    (stats Qsqrt rank_percentile rank_percentiles
           (df_clean sample_head Qsqrt (df six_cells))) =
  (["Carbon Percent -> Mean: #.##, Median: #.##, StdDev: #.##, Q1: #.##, Q3: #.##";
    "Nitrogen Percent -> Mean: #.##, Median: #.##, StdDev: #.##, Q1: #.##, Q3: #.##"]%string,
   None).
Proof. reflexivity. Qed.

Example sorted_sample_rows :
  map (getField "timestamp")
      (orderBy ["soil_moisture"; "timestamp"]%string (read_csv six_cells)) =
  [Some 1; Some 2; Some 3; Some 5; Some 6; Some 4]%Q.
Proof. reflexivity. Qed.

Example df_vector_gap :
  df_vector (read_csv six_cells) <> None /\
  df_vector [[("soil_moisture"%string, Some 10%Q)]] = None.
Proof. split; [discriminate|reflexivity]. Qed.

Import Pandas.




Example add_combined_value_rows :
  add_combined_value
    [("sensor_reading"%string, [Some 3; None]%Q);
     ("control_value"%string, [Some (9 # 2); Some 1]%Q)] =
  Some [("sensor_reading"%string, [Some 3; None]%Q);
        ("control_value"%string, [Some (9 # 2); Some 1]%Q);
        ("combined_value"%string, [Some (3 + (9 # 2)); None]%Q)] /\
  add_combined_value [("sensor_reading"%string, [Some 3]%Q)] = None.
Proof. split; reflexivity. Qed.

Example labels_after_dedup :
  drop_duplicates Z.eq_dec (read_csv [7; 8; 7; 9; 8]%Z) =
    [(0%nat, 7%Z); (1%nat, 8%Z); (3%nat, 9%Z)] /\
  duplicate_report Z.eq_dec (read_csv [7; 8; 9]%Z) = (0, 3)%nat.
Proof. split; reflexivity. Qed.

End StageChecks.
